(** * eCFR hierarchy flattener and CFR reference synthesizer

    A shallow embedding of [calculate_cfr_ref] and
    [flatten_all_elements_with_full_hierarchy] from
    [download_ecfr_titles.py], with the properties the specification
    states about them.

    Python values are restricted to the scalars a flat record can hold
    (null, booleans, integers, strings).  A [dict] is an association list
    in insertion order, with the update discipline of a Python dict.
    Python text is kept as its UTF-8 bytes.  Calls to [logger] are not
    modelled: they do not influence any returned value. *)

From Stdlib Require Import List String Ascii ZArith Lia Bool DecimalString.
Import ListNotations.

Local Open Scope string_scope.
Local Open Scope list_scope.
Local Open Scope Z_scope.

(** ** Python scalars and dictionaries *)

Module Py.

Inductive value : Type :=
| VNone
| VBool (b : bool)
| VInt (z : Z)
| VStr (s : string).

(** [bool(v)]. *)
Definition truthy (v : value) : bool :=
  match v with
  | VNone => false
  | VBool b => b
  | VInt z => negb (Z.eqb z 0)
  | VStr s => negb (String.eqb s EmptyString)
  end.

(** [str(v)], which is also what an f-string field [{v}] prints. *)
Definition str (v : value) : string :=
  match v with
  | VNone => "None"
  | VBool true => "True"
  | VBool false => "False"
  | VInt z => NilZero.string_of_int (Z.to_int z)
  | VStr s => s
  end.

(** [v == "literal"]: only a string equals a string literal. *)
Definition eq_lit (v : value) (lit : string) : bool :=
  match v with
  | VStr s => String.eqb s lit
  | _ => false
  end.

Definition dict : Type := list (string * value).

(** [d.get(k)] as an option. *)
Fixpoint lookup (d : dict) (k : string) : option value :=
  match d with
  | [] => None
  | (k', v) :: d' => if String.eqb k' k then Some v else lookup d' k
  end.

(** [d.get(k, default)]. *)
Definition get (d : dict) (k : string) (default : value) : value :=
  match lookup d k with
  | Some v => v
  | None => default
  end.

(** [k in d]. *)
Definition contains (k : string) (d : dict) : bool :=
  match lookup d k with
  | Some _ => true
  | None => false
  end.

(** [d[k] = v]: an existing key keeps its position, a new key goes last. *)
Fixpoint set (d : dict) (k : string) (v : value) : dict :=
  match d with
  | [] => [(k, v)]
  | (k', v') :: d' =>
      if String.eqb k' k then (k', v) :: d' else (k', v') :: set d' k v
  end.

(** [del d[k]] (the caller has checked [k in d]); on unique keys this drops
    the one entry under [k]. *)
Definition del (d : dict) (k : string) : dict :=
  filter (fun kv => negb (String.eqb (fst kv) k)) d.

(** [d.update(other)]. *)
Definition update (d other : dict) : dict :=
  fold_left (fun acc kv => set acc (fst kv) (snd kv)) other d.

Definition keys (d : dict) : list string := map fst d.

(** [k in [a, b, ...]] for a list of string literals. *)
Definition in_list (k : string) (l : list string) : bool :=
  existsb (String.eqb k) l.

(** Exceptions, and computations that may raise. *)
Inductive exn : Type :=
| KeyError (k : string).

Inductive res (A : Type) : Type :=
| Ok (a : A)
| Raise (e : exn).
Arguments Ok {A} a.
Arguments Raise {A} e.

Definition bind {A B : Type} (c : res A) (k : A -> res B) : res B :=
  match c with
  | Ok a => k a
  | Raise e => Raise e
  end.

(** [d[k]], which raises [KeyError] on a missing key. *)
Definition getitem (d : dict) (k : string) : res value :=
  match lookup d k with
  | Some v => Ok v
  | None => Raise (KeyError k)
  end.

(** [k in d and d[k]], evaluated left to right with short circuit, then
    taken as a condition. *)
Definition has_truthy (d : dict) (k : string) : res bool :=
  if contains k d then bind (getitem d k) (fun v => Ok (truthy v))
  else Ok false.

End Py.

Import Py.

Notation "x <- c ;; k" := (bind c (fun x => k))
  (at level 61, c at next level, right associativity).
Notation "' p <- c ;; k" := (bind c (fun x => let 'p := x in k))
  (at level 61, p pattern, c at next level, right associativity).

Infix "+++" := String.append (at level 60, right associativity).

(** ** The reference synthesizer *)

Definition calculate_cfr_ref (item : dict) : res string :=
  let hierarchy_type := get item "hierarchy_type" VNone in
  let title_id := get item "title_identifier" (VStr EmptyString) in
  if negb (truthy title_id) then
    Ok ("CFR " +++ str hierarchy_type)
  else
    let base_ref := str title_id +++ " CFR" in
    if eq_lit hierarchy_type "title" then
      Ok base_ref
    else if eq_lit hierarchy_type "chapter" then
      let chapter_id := get item "chapter_identifier" (VStr EmptyString) in
      Ok (if truthy chapter_id then base_ref +++ " ch" +++ str chapter_id
          else base_ref)
    else if eq_lit hierarchy_type "subchapter" then
      let chapter_id := get item "chapter_identifier" (VStr EmptyString) in
      let subchapter_id :=
        get item "subchapter_identifier" (VStr EmptyString) in
      if truthy chapter_id && truthy subchapter_id then
        Ok (base_ref +++ " ch" +++ str chapter_id +++ "-"
              +++ str subchapter_id)
      else Ok base_ref
    else if eq_lit hierarchy_type "part" then
      let part_id := get item "part_identifier" (VStr EmptyString) in
      Ok (if truthy part_id then base_ref +++ " pt" +++ str part_id
          else base_ref)
    else if eq_lit hierarchy_type "subpart" then
      let part_id := get item "part_identifier" (VStr EmptyString) in
      let subpart_id := get item "subpart_identifier" (VStr EmptyString) in
      if truthy part_id && truthy subpart_id then
        Ok (base_ref +++ " pt" +++ str part_id +++ "-" +++ str subpart_id)
      else Ok base_ref
    else if eq_lit hierarchy_type "section" then
      let section_id := get item "section_identifier" (VStr EmptyString) in
      Ok (if truthy section_id then base_ref +++ " §" +++ str section_id
          else base_ref)
    else if eq_lit hierarchy_type "appendix" then
      c1 <- has_truthy item "section_identifier" ;;
      if c1 then
        section_id <- getitem item "section_identifier" ;;
        let appendix_id :=
          get item "appendix_identifier" (VStr EmptyString) in
        Ok (if truthy appendix_id
            then base_ref +++ " §" +++ str section_id +++ " ( "
                   +++ str appendix_id +++ ")"
            else base_ref +++ " §" +++ str section_id)
      else
        c2 <- has_truthy item "part_identifier" ;;
        if c2 then
          part_id <- getitem item "part_identifier" ;;
          let appendix_id :=
            get item "appendix_identifier" (VStr EmptyString) in
          Ok (if truthy appendix_id
              then base_ref +++ " pt" +++ str part_id +++ " ( "
                     +++ str appendix_id +++ ")"
              else base_ref +++ " pt" +++ str part_id)
        else
          let appendix_id :=
            get item "appendix_identifier" (VStr EmptyString) in
          Ok (if truthy appendix_id
              then base_ref +++ " ( " +++ str appendix_id +++ ")"
              else base_ref)
    else if eq_lit hierarchy_type "subject_group" then
      let subj_grp_id :=
        get item "subject_group_identifier" (VStr EmptyString) in
      let subj_grp_suffix :=
        if truthy subj_grp_id then " (Subj Grp " +++ str subj_grp_id +++ ")"
        else EmptyString in
      base <-
        (c1 <- has_truthy item "appendix_identifier" ;;
         if c1 then
           let section_id :=
             get item "section_identifier" (VStr EmptyString) in
           appendix_id <- getitem item "appendix_identifier" ;;
           Ok (if truthy section_id
               then base_ref +++ " §" +++ str section_id +++ " ( "
                      +++ str appendix_id +++ ")"
               else base_ref +++ " ( " +++ str appendix_id +++ ")")
         else
           c2 <- has_truthy item "section_identifier" ;;
           if c2 then
             section_id <- getitem item "section_identifier" ;;
             Ok (base_ref +++ " §" +++ str section_id)
           else
             c3 <- has_truthy item "subpart_identifier" ;;
             if c3 then
               let part_id :=
                 get item "part_identifier" (VStr EmptyString) in
               subpart_id <- getitem item "subpart_identifier" ;;
               Ok (if truthy part_id
                   then base_ref +++ " pt" +++ str part_id +++ "-"
                          +++ str subpart_id
                   else base_ref +++ " (Subpart " +++ str subpart_id +++ ")")
             else
               c4 <- has_truthy item "part_identifier" ;;
               if c4 then
                 part_id <- getitem item "part_identifier" ;;
                 Ok (base_ref +++ " pt" +++ str part_id)
               else
                 c5 <- has_truthy item "subchapter_identifier" ;;
                 if c5 then
                   let chapter_id :=
                     get item "chapter_identifier" (VStr EmptyString) in
                   subchapter_id <- getitem item "subchapter_identifier" ;;
                   Ok (if truthy chapter_id
                       then base_ref +++ " ch" +++ str chapter_id +++ "-"
                              +++ str subchapter_id
                       else base_ref +++ " (Subchapter "
                              +++ str subchapter_id +++ ")")
                 else Ok base_ref) ;;
      Ok (base +++ subj_grp_suffix)
    else
      Ok (base_ref +++ " (" +++ str hierarchy_type +++ ")").

(** ** Structure nodes

    A node is a JSON object.  [attrs] holds its entries other than
    [children], in the object's order; [children] is the value under the key
    [children]: [None] when the key is absent, otherwise the list of child
    nodes. *)

Unset Elimination Schemes.
Inductive node : Type :=
| Node (attrs : dict) (children : option (list node)).
Set Elimination Schemes.

Definition attrs (n : node) : dict := let 'Node a _ := n in a.
Definition children (n : node) : option (list node) := let 'Node _ c := n in c.

Section NodeInduction.
Variable P : node -> Prop.
Hypothesis P_leaf : forall a, P (Node a None).
Hypothesis P_inner : forall a kids, Forall P kids -> P (Node a (Some kids)).

Fixpoint node_ind (n : node) : P n :=
  match n with
  | Node a None => P_leaf a
  | Node a (Some kids) =>
      P_inner a kids
        ((fix all (l : list node) : Forall P l :=
            match l with
            | [] => Forall_nil P
            | k :: l' => Forall_cons k (node_ind k) (all l')
            end) kids)
  end.
End NodeInduction.

(** ** The flattener *)

Definition remove_list : list string := ["size"; "volumes"; "descendant_range"].

(** Lines 603-607: [for key in remove_list: if key in node: del node[key]]. *)
Definition remove_unwanted (a : dict) : dict :=
  fold_left (fun d key => if contains key d then del d key else d)
    remove_list a.

(** [f"{prefix}_{k}"] with [prefix = owner.get("type", "root")]. *)
Definition namespaced (owner : dict) (k : string) : string :=
  str (get owner "type" (VStr "root")) +++ "_" +++ k.

(** Lines 612-615: one ancestor's fields written into the combined dict. *)
Definition add_ancestor (combined : dict) (ancestor : node) : dict :=
  fold_left
    (fun acc kv =>
       if negb (String.eqb (fst kv) "children")
       then set acc (namespaced (attrs ancestor) (fst kv)) (snd kv)
       else acc)
    (attrs ancestor) combined.

(** Lines 610-615. *)
Definition combined_parent_fields (parent_chain : list node) : dict :=
  fold_left add_ancestor parent_chain [].

(** Lines 618-622: the node's own namespaced fields. *)
Definition own_fields (a : dict) : dict :=
  fold_left
    (fun acc kv =>
       if negb (in_list (fst kv) ["children"; "type"])
       then set acc (namespaced a (fst kv)) (snd kv)
       else acc)
    a [].

(** [len(node.get("children", [])) == 0]. *)
Definition no_children (c : option (list node)) : bool :=
  match c with
  | None => true
  | Some l => Nat.eqb (List.length l) 0
  end.

(** Lines 618-634: the record before its reference is computed. *)
Definition element_fields (parent_chain : list node) (level : Z) (n : node)
    (order_id : Z) : dict :=
  let element := own_fields (attrs n) in
  let element := update element (combined_parent_fields parent_chain) in
  let element := set element "hierarchy_level" (VInt level) in
  let element := set element "hierarchy_type" (get (attrs n) "type" VNone) in
  let element := set element "order_id" (VInt order_id) in
  set element "is_leaf_node" (VBool (no_children (children n))).

(** Lines 609-637. *)
Definition build_element (parent_chain : list node) (level : Z) (n : node)
    (order_id : Z) : res dict :=
  let element := element_fields parent_chain level n order_id in
  ref <- calculate_cfr_ref element ;;
  Ok (set element "cfr_ref" (VStr ref)).

(** [order_id] is the content of the one-cell list the Python function
    receives; the content it is left with is returned, together with the
    result list and the node as the in-place deletions leave it.  The
    [parent_chain] holds the ancestors as they are after their own keys were
    removed; of an ancestor only its non-[children] entries are ever read. *)
Fixpoint flatten_all_elements_with_full_hierarchy (n : node)
    (results : option (list dict)) (parent_chain : option (list node))
    (level : Z) (order_id : Z) {struct n} : res (list dict * node * Z) :=
  let results := match results with None => [] | Some r => r end in
  let parent_chain := match parent_chain with None => [] | Some c => c end in
  match n with
  | Node a kids =>
      let a := remove_unwanted a in
      let n := Node a kids in
      element <- build_element parent_chain level n order_id ;;
      let order_id := order_id + 1 in
      let results := results ++ [element] in
      match kids with
      | None => Ok (results, n, order_id)
      | Some kids =>
          '(results, kids, order_id) <-
            (fix loop (l : list node) (results : list dict) (order_id : Z)
               : res (list dict * list node * Z) :=
               match l with
               | [] => Ok (results, [], order_id)
               | child :: rest =>
                   '(results, child, order_id) <-
                     flatten_all_elements_with_full_hierarchy child
                       (Some results) (Some (parent_chain ++ [n]))
                       (level + 1) order_id ;;
                   '(results, rest, order_id) <- loop rest results order_id ;;
                   Ok (results, child :: rest, order_id)
               end) kids results order_id ;;
          Ok (results, Node a (Some kids), order_id)
      end
  end.

(** The call [flatten_all_elements_with_full_hierarchy(structure_json)] of
    line 223.  No [order_id] is passed, so the function uses the list that
    was built once, when the [def] was executed, as the parameter's default:
    [default_order_id] is the content of that list, a piece of module state
    that starts at [initial_default_order_id]. *)
Definition initial_default_order_id : Z := 1.

Definition flatten (root : node) (default_order_id : Z)
  : res (list dict * node * Z) :=
  flatten_all_elements_with_full_hierarchy root None None 0 default_order_id.

(** The loop of lines 642-643 on its own: the children one after the other,
    on the same result list and the same counter. *)
Fixpoint flatten_children (kids : list node) (results : list dict)
    (parent_chain : list node) (level : Z) (order_id : Z)
  : res (list dict * list node * Z) :=
  match kids with
  | [] => Ok (results, [], order_id)
  | child :: rest =>
      '(results, child, order_id) <-
        flatten_all_elements_with_full_hierarchy child
          (Some results) (Some parent_chain) level order_id ;;
      '(results, rest, order_id) <-
        flatten_children rest results parent_chain level order_id ;;
      Ok (results, child :: rest, order_id)
  end.

(** [x if x is not None else []]. *)
Definition or_empty {A : Type} (o : option (list A)) : list A :=
  match o with
  | None => []
  | Some l => l
  end.

(** ** Specification-side definitions *)

(** Unique keys: what every Python dict satisfies. *)
Definition wf (d : dict) : Prop := NoDup (keys d).

(** The text a total run of the synthesizer returns. *)
Definition cfr_ref_text (item : dict) : string :=
  match calculate_cfr_ref item with
  | Ok s => s
  | Raise _ => EmptyString
  end.

(** The record of a node, given its ancestors, depth and sequence number. *)
Definition element_of (parent_chain : list node) (level : Z) (n : node)
    (order_id : Z) : dict :=
  let element := element_fields parent_chain level n order_id in
  set element "cfr_ref" (VStr (cfr_ref_text element)).

(** The five keys written after the merge of the ancestor fields. *)
Definition reserved_keys : list string :=
  ["hierarchy_level"; "hierarchy_type"; "order_id"; "is_leaf_node"; "cfr_ref"].

(** A dict without the three volatile keys, everything else in place. *)
Definition without_volatile (a : dict) : dict :=
  filter (fun kv => negb (in_list (fst kv) remove_list)) a.

(** The input tree as a complete traversal leaves it. *)
Fixpoint stripped (n : node) : node :=
  match n with
  | Node a None => Node (without_volatile a) None
  | Node a (Some kids) => Node (without_volatile a) (Some (map stripped kids))
  end.

(** Number of nodes of a tree. *)
Fixpoint size (n : node) : nat :=
  match n with
  | Node _ None => 1
  | Node _ (Some kids) => S (list_sum (map size kids))
  end.

(** Pre-order: a node, then the subtrees of its children from left to right.
    Each visit records the ancestors from the root down to the parent (as
    the traversal has left them), the depth, and the node after its own
    deletions. *)
Definition visit : Type := list node * Z * node.

Fixpoint preorder (parent_chain : list node) (level : Z) (n : node)
  : list visit :=
  match n with
  | Node a kids =>
      let n1 := Node (remove_unwanted a) kids in
      (parent_chain, level, n1) ::
      match kids with
      | None => []
      | Some l => flat_map (preorder (parent_chain ++ [n1]) (level + 1)) l
      end
  end.

(** The records of a list of visits numbered from [order_id] upwards. *)
Fixpoint records_of (order_id : Z) (vs : list visit) : list dict :=
  match vs with
  | [] => []
  | (parent_chain, level, n) :: vs' =>
      element_of parent_chain level n order_id :: records_of (order_id + 1) vs'
  end.

(** [c, c+1, ..., c+len-1]. *)
Fixpoint count_from (c : Z) (len : nat) : list Z :=
  match len with
  | O => []
  | S len' => c :: count_from (c + 1) len'
  end.

(** The subject-group rule as the specification words it: the first context
    identifier, in a fixed priority order, that is present and truthy
    decides the base; an optional second identifier refines it. *)
Inductive context : Type :=
| CtxAppendix | CtxSection | CtxSubpart | CtxPart | CtxSubchapter.

Definition context_priority : list context :=
  [CtxAppendix; CtxSection; CtxSubpart; CtxPart; CtxSubchapter].

Definition context_key (c : context) : string :=
  match c with
  | CtxAppendix => "appendix_identifier"
  | CtxSection => "section_identifier"
  | CtxSubpart => "subpart_identifier"
  | CtxPart => "part_identifier"
  | CtxSubchapter => "subchapter_identifier"
  end.

(** Present and truthy. *)
Definition present (item : dict) (k : string) : bool :=
  match lookup item k with
  | Some v => truthy v
  | None => false
  end.

(** The printed identifier, empty when the key is absent. *)
Definition ident (item : dict) (k : string) : string :=
  match lookup item k with
  | Some v => str v
  | None => EmptyString
  end.

Definition leading_context (item : dict) : option context :=
  find (fun c => present item (context_key c)) context_priority.

Definition context_base (item : dict) (base_ref : string) : string :=
  match leading_context item with
  | Some CtxAppendix =>
      if present item "section_identifier"
      then base_ref +++ " §" +++ ident item "section_identifier" +++ " ( "
             +++ ident item "appendix_identifier" +++ ")"
      else base_ref +++ " ( " +++ ident item "appendix_identifier" +++ ")"
  | Some CtxSection => base_ref +++ " §" +++ ident item "section_identifier"
  | Some CtxSubpart =>
      if present item "part_identifier"
      then base_ref +++ " pt" +++ ident item "part_identifier" +++ "-"
             +++ ident item "subpart_identifier"
      else base_ref +++ " (Subpart " +++ ident item "subpart_identifier"
             +++ ")"
  | Some CtxPart => base_ref +++ " pt" +++ ident item "part_identifier"
  | Some CtxSubchapter =>
      if present item "chapter_identifier"
      then base_ref +++ " ch" +++ ident item "chapter_identifier" +++ "-"
             +++ ident item "subchapter_identifier"
      else base_ref +++ " (Subchapter "
             +++ ident item "subchapter_identifier" +++ ")"
  | None => base_ref
  end.

Definition subj_grp_suffix (item : dict) : string :=
  if present item "subject_group_identifier"
  then " (Subj Grp " +++ ident item "subject_group_identifier" +++ ")"
  else EmptyString.

Definition subject_group_ref (item : dict) : string :=
  context_base item (ident item "title_identifier" +++ " CFR")
    +++ subj_grp_suffix item.

(** Projections of a record. *)
Definition order_id_of (r : dict) : option value := lookup r "order_id".
Definition level_of (r : dict) : option value := lookup r "hierarchy_level".
Definition cfr_ref_of (r : dict) : option value := lookup r "cfr_ref".

(** Scenario A of the specification, as a tree. *)
Definition scenario_A : node :=
  Node [("type", VStr "title"); ("title_identifier", VStr "21")]
    (Some [Node [("type", VStr "part"); ("part_identifier", VStr "100")]
       (Some [Node [("type", VStr "section");
                    ("section_identifier", VStr "100.1")]
                (Some [])])]).

(** Scenario A with the attribute named as the structure documents name
    it, [identifier]. *)
Definition scenario_A_identifier : node :=
  Node [("type", VStr "title"); ("identifier", VStr "21")]
    (Some [Node [("type", VStr "part"); ("identifier", VStr "100")]
       (Some [Node [("type", VStr "section"); ("identifier", VStr "100.1")]
                (Some [])])]).

(** A node that holds none of the three volatile keys. *)
Definition clean (n : node) : Prop :=
  forall k, In k remove_list -> contains k (attrs n) = false.

(** A part nested in a part: both produce the key [part_identifier]. *)
Definition inner_part : node :=
  Node [("type", VStr "part"); ("identifier", VStr "2")] (Some []).

Definition outer_part : node :=
  Node [("type", VStr "part"); ("identifier", VStr "1")] (Some [inner_part]).

(** A single title node. *)
Definition lone_title : node :=
  Node [("type", VStr "title"); ("identifier", VStr "7")] (Some []).


(** Two calls of line 223 in one process, as the loop over the titles makes
    them: the second call finds the default list as the first left it. *)
Definition flatten_two_titles (t1 t2 : node) : res (list dict * list dict) :=
  '(recs1, _, default_order_id) <- flatten t1 initial_default_order_id ;;
  '(recs2, _, _) <- flatten t2 default_order_id ;;
  Ok (recs1, recs2).

(** A title with the volatile keys, over a part with one of them. *)
Definition with_volatile : node :=
  Node [("type", VStr "title"); ("identifier", VStr "7"); ("size", VInt 5);
        ("volumes", VStr "1"); ("descendant_range", VStr "1 - 9")]
    (Some [Node [("identifier", VStr "1"); ("size", VInt 3);
                 ("type", VStr "part")] None]).

(** The shape the two namespacing loops share: the entries selected by [p]
    are written under the key [f k]. *)
Definition namespacing_loop (p : string -> bool) (f : string -> string)
    (l acc : dict) : dict :=
  fold_left
    (fun acc kv => if p (fst kv) then set acc (f (fst kv)) (snd kv) else acc)
    l acc.

(** ** Specification-side definitions for the further properties *)

(** The keys [calculate_cfr_ref] looks at. *)
Definition read_keys : list string :=
  ["hierarchy_type"; "title_identifier"; "chapter_identifier";
   "subchapter_identifier"; "part_identifier"; "subpart_identifier";
   "section_identifier"; "appendix_identifier"; "subject_group_identifier"].

Definition agree_on (ks : list string) (d1 d2 : dict) : Prop :=
  forall k, In k ks -> lookup d1 k = lookup d2 k.

(** The type tags [calculate_cfr_ref] has a branch for. *)
Definition known_types : list string :=
  ["title"; "chapter"; "subchapter"; "part"; "subpart"; "section";
   "appendix"; "subject_group"].

(** [base_ref] of a record with a title identifier. *)
Definition base_ref_of (item : dict) : string :=
  ident item "title_identifier" +++ " CFR".

(** Types whose reference adds one identifier: the tag and the key. *)
Definition single_rule (ty : string) : option (string * string) :=
  if String.eqb ty "chapter" then Some (" ch", "chapter_identifier")
  else if String.eqb ty "part" then Some (" pt", "part_identifier")
  else if String.eqb ty "section" then Some (" §", "section_identifier")
  else None.

(** Types whose reference adds two identifiers joined by a dash. *)
Definition paired_rule (ty : string) : option (string * string * string) :=
  if String.eqb ty "subchapter"
  then Some (" ch", "chapter_identifier", "subchapter_identifier")
  else if String.eqb ty "subpart"
  then Some (" pt", "part_identifier", "subpart_identifier")
  else None.

(** Whether a key contains the separator the namespacing inserts. *)
Fixpoint has_underscore (s : string) : bool :=
  match s with
  | EmptyString => false
  | String c s' => Ascii.eqb c "_"%char || has_underscore s'
  end.

(** ** The caller: preparing the detail records

    Lines 259 and 266-309 of [get_parts_and_structure], the part between the
    call of the flattener and the database (the function returns at lines
    261-263, before the loop, when the filtered list is empty). *)

(** Line 259: the title's own record is dropped. *)
Definition filtered_flattened (flattened : list dict) : list dict :=
  filter (fun item => negb (eq_lit (get item "hierarchy_type" VNone) "title"))
    flattened.

(** Lines 273-297: the row for the [title_details] table. *)
Definition detail_record (item : dict) (title_number : value) : dict :=
  [("cfr_ref", get item "cfr_ref" VNone);
   ("reg_text", VNone);
   ("reg_text_download_date", VNone);
   ("hierarchy_type", get item "hierarchy_type" VNone);
   ("hierarchy_level", get item "hierarchy_level" VNone);
   ("is_leaf_node", get item "is_leaf_node" (VBool false));
   ("reserved", get item "reserved" (VBool false));
   ("order_id", get item "order_id" VNone);
   ("title_number", title_number);
   ("chapter_id", get item "chapter_identifier" VNone);
   ("chapter_label", get item "chapter_label" VNone);
   ("subchapter_id", get item "subchapter_identifier" VNone);
   ("subchapter_label", get item "subchapter_label" VNone);
   ("part_id", get item "part_identifier" VNone);
   ("part_label", get item "part_label" VNone);
   ("subpart_id", get item "subpart_identifier" VNone);
   ("subpart_label", get item "subpart_label" VNone);
   ("section_id", get item "section_identifier" VNone);
   ("section_label", get item "section_label" VNone);
   ("appendix_id", get item "appendix_identifier" VNone);
   ("appendix_label", get item "appendix_label" VNone);
   ("subject_grp_id", get item "subject_group_identifier" VNone);
   ("subject_grp_label", get item "subject_group_label" VNone)].

(** Lines 266-309: the loop that fills [detail_records] and counts the
    skipped records. An exception inside the [try] leaves both as they
    are and goes on with the next item. *)
Fixpoint prepare_detail_records (items : list dict) (title_number : value)
    (detail_records : list dict) (skipped_records : Z) : list dict * Z :=
  match items with
  | [] => (detail_records, skipped_records)
  | item :: rest =>
      let record := detail_record item title_number in
      match getitem record "cfr_ref" with
      | Ok ref =>
          if negb (truthy ref)
          then prepare_detail_records rest title_number detail_records
                 (skipped_records + 1)
          else prepare_detail_records rest title_number
                 (detail_records ++ [record]) skipped_records
      | Raise _ =>
          prepare_detail_records rest title_number detail_records
            skipped_records
      end
  end.

(** ** The titles filter

    Lines 88 and 98: [[title for title in titles if title["number"] in
    TITLE_NUMBERS]]. *)




(** ** upsert_to_db.py: identifiers and the upsert statement *)

Inductive db_exn : Type :=
| DatabaseError (msg : string)
| ValueError (msg : string).

Inductive outcome (A : Type) : Type :=
| Done (a : A)
| Fail (e : db_exn).
Arguments Done {A} a.
Arguments Fail {A} e.

Definition and_then {A B : Type} (c : outcome A) (k : A -> outcome B)
  : outcome B :=
  match c with
  | Done a => k a
  | Fail e => Fail e
  end.

Notation "x <~ c ;; k" := (and_then c (fun x => k))
  (at level 61, c at next level, right associativity).

Definition dquote : string := String "034"%char EmptyString.
Definition newline : string := String "010"%char EmptyString.

(** [[A-Za-z_]] and [[A-Za-z0-9_]]. *)
Definition is_start_char (c : ascii) : bool :=
  let n := nat_of_ascii c in
  ((65 <=? n) && (n <=? 90) || (97 <=? n) && (n <=? 122) || (n =? 95))%nat.

Definition is_part_char (c : ascii) : bool :=
  let n := nat_of_ascii c in
  (is_start_char c || (48 <=? n) && (n <=? 57))%nat.

(** [[A-Za-z0-9_]*$] from a position on: [$] is the end of the string, and
    also the place before a newline that ends the string. *)
Fixpoint match_rest (s : string) : bool :=
  match s with
  | EmptyString => true
  | String c s' =>
      if is_part_char c then match_rest s'
      else Ascii.eqb c "010"%char && String.eqb s' EmptyString
  end.

(** [_VALID_SQL_IDENTIFIER.match(s)] as a condition. *)
Definition valid_identifier_match (s : string) : bool :=
  match s with
  | EmptyString => false
  | String c s' => is_start_char c && match_rest s'
  end.

(** [type(v).__name__]. *)
Definition type_name (v : value) : string :=
  match v with
  | VNone => "NoneType"
  | VBool _ => "bool"
  | VInt _ => "int"
  | VStr _ => "str"
  end.

(** Lines 92-119. *)
Definition validate_sql_identifier (identifier : value)
    (identifier_type : string) : outcome unit :=
  match identifier with
  | VStr s =>
      if String.eqb s EmptyString then
        Fail (DatabaseError
                ("Invalid " +++ identifier_type +++ ": cannot be empty"))
      else if negb (valid_identifier_match s) then
        Fail (DatabaseError
                ("Invalid " +++ identifier_type +++ ": '" +++ s +++ "'. "
                 +++ "Must start with letter or underscore, contain only letters, numbers, and underscores."))
      else Done tt
  | other =>
      Fail (DatabaseError
              ("Invalid " +++ identifier_type
               +++ ": must be a string, got " +++ type_name other))
  end.

(** The [conflict_key] argument: a string, a list or tuple of strings, or
    a value of another type, given with the text [type(...)] prints. *)
Inductive conflict_key_arg : Type :=
| CkStr (s : string)
| CkSeq (l : list string)
| CkOther (type_repr : string).

(** Lines 181-182: [for column_name in record.keys(): validate...]. *)
Fixpoint validate_columns (columns : list string) : outcome unit :=
  match columns with
  | [] => Done tt
  | column_name :: rest =>
      _ <~ validate_sql_identifier (VStr column_name) "column name" ;;
      validate_columns rest
  end.

(** Lines 185-190. *)
Definition normalize_conflict_key (conflict_key : conflict_key_arg)
  : outcome (list string) :=
  match conflict_key with
  | CkStr s => Done [s]
  | CkSeq l => Done l
  | CkOther type_repr =>
      Fail (ValueError
              ("conflict_key must be string, list, or tuple, got "
               +++ type_repr))
  end.

(** Lines 196-199. *)
Fixpoint validate_conflict_keys (conflict_keys : list string) (record : dict)
  : outcome unit :=
  match conflict_keys with
  | [] => Done tt
  | key :: rest =>
      _ <~ validate_sql_identifier (VStr key) "conflict key" ;;
      if negb (contains key record) then
        Fail (ValueError ("Conflict key '" +++ key +++ "' not found in record"))
      else validate_conflict_keys rest record
  end.

(** [f'"{col}"']. *)
Definition quoted (col : string) : string := dquote +++ col +++ dquote.

Definition indent16 : string := "                ".
Definition indent12 : string := "            ".

(** Lines 204-225: the statement text. *)
Definition build_sql (record : dict) (table_name : string)
    (conflict_keys : list string) : string :=
  let columns := String.concat ", " (map quoted (keys record)) in
  let placeholders :=
    String.concat ", " (repeat "?" (List.length record)) in
  let conflict_clause := String.concat ", " (map quoted conflict_keys) in
  let update_columns :=
    filter (fun col => negb (in_list col conflict_keys)) (keys record) in
  let head :=
    newline +++ indent16 +++ "INSERT INTO " +++ quoted table_name
      +++ " (" +++ columns +++ ") " +++ newline
      +++ indent16 +++ "VALUES (" +++ placeholders +++ ")" +++ newline
      +++ indent16 +++ "ON CONFLICT(" +++ conflict_clause +++ ") "
      +++ newline in
  match update_columns with
  | _ :: _ =>
      let update_clause :=
        String.concat ", "
          (map (fun col => quoted col +++ " = excluded." +++ quoted col)
             update_columns) in
      head +++ indent16 +++ "DO UPDATE SET " +++ update_clause +++ newline
        +++ indent12
  | [] => head +++ indent16 +++ "DO NOTHING" +++ newline +++ indent12
  end.

(** [upsert_to_db] up to the statement it hands to [conn.execute]: the
    checks of lines 167-199 in their order, then the text of lines 204-225.
    The record is taken after [clean_record_values], which keeps its keys;
    the statement does not depend on the values. *)
Definition upsert_statement (record : dict) (table_name : string)
    (conflict_key : conflict_key_arg) : outcome string :=
  match record with
  | [] => Fail (ValueError "Record cannot be empty")
  | _ :: _ =>
      _ <~ validate_sql_identifier (VStr table_name) "table name" ;;
      _ <~ validate_columns (keys record) ;;
      conflict_keys <~ normalize_conflict_key conflict_key ;;
      match conflict_keys with
      | [] => Fail (ValueError "conflict_key cannot be empty")
      | _ :: _ =>
          _ <~ validate_conflict_keys conflict_keys record ;;
          Done (build_sql record table_name conflict_keys)
      end
  end.

(** ** upsert_to_db.py: the batches

    Lines 322-324: [for i in range(0, len(records), batch_size)] with
    [batch = records[i:i + batch_size]] and
    [batch_num = i // batch_size + 1], for a positive [batch_size]. The
    loop runs at most [len(records)] times, which is the fuel. *)
Fixpoint batches_from {A : Type} (fuel i : nat) (records : list A)
    (batch_size : nat) : list (nat * list A) :=
  match fuel with
  | O => []
  | S fuel' =>
      if (i <? List.length records)%nat then
        ((i / batch_size + 1)%nat, firstn batch_size (skipn i records))
          :: batches_from fuel' (i + batch_size)%nat records batch_size
      else []
  end.

Definition batch_plan {A : Type} (records : list A) (batch_size : nat)
  : list (nat * list A) :=
  batches_from (List.length records) 0 records batch_size.

(** An identifier made of letters, digits and underscores that does not
    start with a digit. *)
Definition plain_identifier (s : string) : bool :=
  match s with
  | EmptyString => false
  | String c s' =>
      is_start_char c && forallb is_part_char (list_ascii_of_string s')
  end.

(** Number of occurrences of a character. *)
Fixpoint count_char (c : ascii) (s : string) : nat :=
  match s with
  | EmptyString => O
  | String c' s' => ((if Ascii.eqb c c' then 1 else 0) + count_char c s')%nat
  end.



(** ** Inputs and specification-side definitions for the revised statements *)

(** Three parts nested in each other, identifiers A, B, C. *)
Definition part_C : node :=
  Node [("type", VStr "part"); ("identifier", VStr "C")] (Some []).
Definition part_B : node :=
  Node [("type", VStr "part"); ("identifier", VStr "B")] (Some [part_C]).
Definition part_A : node :=
  Node [("type", VStr "part"); ("identifier", VStr "A")] (Some [part_B]).

(** A subject group nested in a subject group, under part 4 of title 27. *)
Definition inner_group : node :=
  Node [("type", VStr "subject_group"); ("identifier", VStr "sg2")] (Some []).
Definition outer_group : node :=
  Node [("type", VStr "subject_group"); ("identifier", VStr "sg1")]
    (Some [inner_group]).
Definition title_with_nested_groups : node :=
  Node [("type", VStr "title"); ("identifier", VStr "27")]
    (Some [Node [("type", VStr "part"); ("identifier", VStr "4")]
             (Some [outer_group])]).

(** The three volatile keys, by name. *)
Definition is_volatile (k : string) : bool :=
  String.eqb k "size" || String.eqb k "volumes"
  || String.eqb k "descendant_range".

(** A dict without the entries under [size], [volumes] and
    [descendant_range]; the other entries stay, in their order. *)
Definition drop_volatile (a : dict) : dict :=
  filter (fun kv => negb (is_volatile (fst kv))) a.

(** The tree with these three keys gone from every node. *)
Fixpoint expected_tree (n : node) : node :=
  match n with
  | Node a None => Node (drop_volatile a) None
  | Node a (Some kids) => Node (drop_volatile a) (Some (map expected_tree kids))
  end.

(** A node of type [a_b] with a [size], under a node of type [a] that has
    an attribute [b_size]: both are namespaced to [a_b_size]. *)
Definition sized_child : node :=
  Node [("type", VStr "a_b"); ("size", VInt 10)] None.
Definition sized_parent : node :=
  Node [("type", VStr "a"); ("b_size", VInt 1)] (Some [sized_child]).

(** A node whose [type] is the string ["title"]. *)
Definition is_title_node (n : node) : bool :=
  match lookup (attrs n) "type" with
  | Some (VStr s) => String.eqb s "title"
  | _ => false
  end.



(** ** Dictionaries *)

Lemma lookup_set_eq d k v : lookup (set d k v) k = Some v.
Proof.
  induction d as [|[k' v'] d IH]; simpl.
  - now rewrite String.eqb_refl.
  - destruct (String.eqb k' k) eqn:E; simpl; rewrite E; auto.
Qed.

Lemma lookup_set_ne d k v k' : k <> k' -> lookup (set d k v) k' = lookup d k'.
Proof.
  intros Hne. induction d as [|[k0 v0] d IH]; simpl.
  - destruct (String.eqb k k') eqn:E; auto.
    apply String.eqb_eq in E. contradiction.
  - destruct (String.eqb k0 k) eqn:E; simpl.
    + apply String.eqb_eq in E. subst k0.
      destruct (String.eqb k k') eqn:E'; auto.
      apply String.eqb_eq in E'. contradiction.
    + rewrite IH. reflexivity.
Qed.

Lemma lookup_set d k v k' :
  lookup (set d k v) k' = if String.eqb k k' then Some v else lookup d k'.
Proof.
  destruct (String.eqb k k') eqn:E.
  - apply String.eqb_eq in E. subst. apply lookup_set_eq.
  - apply String.eqb_neq in E. now apply lookup_set_ne.
Qed.

Lemma lookup_none_notin d k : lookup d k = None <-> ~ In k (keys d).
Proof.
  induction d as [|[k' v'] d IH]; simpl.
  - tauto.
  - destruct (String.eqb k' k) eqn:E.
    + apply String.eqb_eq in E. split; [discriminate | tauto].
    + apply String.eqb_neq in E. rewrite IH. tauto.
Qed.

Lemma lookup_some_in d k v : lookup d k = Some v -> In (k, v) d.
Proof.
  induction d as [|[k' v'] d IH]; simpl; [discriminate|].
  destruct (String.eqb k' k) eqn:E.
  - apply String.eqb_eq in E. intros [= ->]. subst. now left.
  - auto.
Qed.

Lemma in_lookup_wf d k v : wf d -> In (k, v) d -> lookup d k = Some v.
Proof.
  unfold wf, keys. induction d as [|[k' v'] d IH]; simpl; [tauto|].
  intros Hnd [Heq|Hin].
  - inversion Heq; subst. now rewrite String.eqb_refl.
  - inversion Hnd as [|? ? Hnotin Hnd']; subst.
    destruct (String.eqb k' k) eqn:E.
    + apply String.eqb_eq in E. subst k'.
      exfalso. apply Hnotin. now apply (in_map fst) in Hin.
    + auto.
Qed.

Lemma contains_iff d k : contains k d = true <-> In k (keys d).
Proof.
  unfold contains. destruct (lookup d k) eqn:E.
  - split; auto. intros _.
    apply lookup_some_in in E. now apply (in_map fst) in E.
  - split; [discriminate|]. intros Hin.
    now apply lookup_none_notin in E.
Qed.

Lemma keys_set d k v :
  keys (set d k v) = if contains k d then keys d else keys d ++ [k].
Proof.
  unfold contains, keys. induction d as [|[k' v'] d IH]; simpl; auto.
  destruct (String.eqb k' k) eqn:E; simpl; auto.
  rewrite IH. now destruct (lookup d k).
Qed.

Lemma wf_set d k v : wf d -> wf (set d k v).
Proof.
  unfold wf. intros Hd. rewrite keys_set.
  destruct (contains k d) eqn:E; auto.
  apply NoDup_app; auto.
  - repeat constructor. simpl. tauto.
  - intros x Hx [<-|[]].
    apply contains_iff in Hx. congruence.
Qed.

Lemma wf_del d k : wf d -> wf (del d k).
Proof.
  unfold wf, del, keys. induction d as [|[k' v'] d IH]; simpl; auto.
  intros Hnd. inversion Hnd as [|? ? Hnotin Hnd']; subst.
  destruct (String.eqb k' k); simpl; auto.
  constructor; auto. intros Hin. apply Hnotin.
  apply in_map_iff in Hin. destruct Hin as (x & <- & Hx).
  apply filter_In in Hx. now apply in_map.
Qed.

Lemma lookup_update d o k :
  wf o ->
  lookup (update d o) k =
  match lookup o k with
  | Some v => Some v
  | None => lookup d k
  end.
Proof.
  unfold update, wf, keys. revert d.
  induction o as [|[k0 v0] o IH]; intros d Hnd; simpl; auto.
  inversion Hnd as [|? ? Hnotin Hnd']; subst.
  rewrite IH by assumption. rewrite lookup_set.
  destruct (String.eqb k0 k) eqn:E.
  - apply String.eqb_eq in E. subst k0.
    apply lookup_none_notin in Hnotin. now rewrite Hnotin.
  - reflexivity.
Qed.

(** ** The reference synthesizer never raises *)

Lemma has_truthy_present d k : has_truthy d k = Ok (present d k).
Proof.
  unfold has_truthy, contains, getitem, present.
  now destruct (lookup d k).
Qed.

Lemma present_getitem d k :
  present d k = true -> getitem d k = Ok (get d k (VStr EmptyString)).
Proof.
  unfold present, getitem, get. now destruct (lookup d k).
Qed.

Lemma present_get d k :
  present d k = truthy (get d k (VStr EmptyString)).
Proof.
  unfold present, get. now destruct (lookup d k).
Qed.

Lemma ident_get d k : ident d k = str (get d k (VStr EmptyString)).
Proof.
  unfold ident, get. now destruct (lookup d k).
Qed.

Ltac synth_step :=
  match goal with
  | H : present ?d ?k = true |- context [getitem ?d ?k] =>
      rewrite (present_getitem d k H)
  | |- context [has_truthy ?d ?k] =>
      rewrite (has_truthy_present d k); cbn [bind]
  | |- context [bind (Ok _) _] => cbn [bind]
  | |- exists s, (if ?c then _ else _) = Ok s => destruct c eqn:?
  | |- exists s, bind (if ?c then _ else _) _ = Ok s => destruct c eqn:?
  | |- exists s, Ok _ = Ok s => eexists; reflexivity
  end.

Lemma calculate_cfr_ref_ok item : exists s, calculate_cfr_ref item = Ok s.
Proof.
  unfold calculate_cfr_ref. cbv zeta.
  repeat synth_step.
Qed.

Lemma calculate_cfr_ref_text item :
  calculate_cfr_ref item = Ok (cfr_ref_text item).
Proof.
  unfold cfr_ref_text.
  destruct (calculate_cfr_ref_ok item) as [s ->]. reflexivity.
Qed.

Lemma append_assoc (a b c : string) : (a +++ b) +++ c = a +++ b +++ c.
Proof. induction a as [|x a IH]; simpl; [reflexivity | now rewrite IH]. Qed.


Ltac eval_eq_lit :=
  repeat match goal with
  | |- context [eq_lit (VStr ?a) ?b] =>
      let r := eval vm_compute in (eq_lit (VStr a) b) in
      change (eq_lit (VStr a) b) with r
  end; cbv iota.

Ltac by_presence :=
  repeat match goal with
  | H : present ?d ?k = true |- context [getitem ?d ?k] =>
      rewrite (present_getitem d k H); cbn [bind]
  | H : present ?d ?k = _ |- context [present ?d ?k] => rewrite H
  | |- context [present ?d ?k] => destruct (present d k) eqn:?
  | |- context [bind (Ok _) _] => cbn [bind]
  end.

(** C4. The reference synthesizer is total: whatever record it is given
    (scalar values under any keys), it raises nothing and returns a string.
    A record holding only [hierarchy_type = "subject_group"] gives
    ["CFR subject_group"]; an absent or null [hierarchy_type] gives
    ["CFR None"]. *)
Theorem synthesizer_total :
  (forall item : dict, exists s : string, calculate_cfr_ref item = Ok s) /\
  calculate_cfr_ref [("hierarchy_type", VStr "subject_group")]
    = Ok "CFR subject_group" /\
  calculate_cfr_ref [] = Ok "CFR None" /\
  calculate_cfr_ref [("hierarchy_type", VNone)] = Ok "CFR None".
Proof.
  split; [exact calculate_cfr_ref_ok | repeat split; reflexivity].
Qed.

(** Scenario C of the specification: the stray space before the appendix
    identifier is kept. *)
Lemma scenario_C_appendix_ref :
  calculate_cfr_ref
    [("hierarchy_type", VStr "appendix"); ("title_identifier", VStr "19");
     ("section_identifier", VStr "5"); ("appendix_identifier", VStr "A")]
  = Ok "19 CFR §5 ( A)".
Proof. reflexivity. Qed.

(** C5, as stated, fails: with neither [title_identifier] nor
    [hierarchy_type] in the record the synthesizer prints Python's [None],
    and the result is ["CFR None"], not ["CFR unknown"]. *)
Lemma degraded_ref_is_not_unknown :
  lookup [] "title_identifier" = None /\
  lookup [] "hierarchy_type" = None /\
  calculate_cfr_ref [] = Ok "CFR None" /\
  calculate_cfr_ref [] <> Ok "CFR unknown".
Proof. repeat split; try reflexivity. discriminate. Qed.

(** C5, amended. For every record whose [title_identifier] is absent or
    falsy the synthesizer returns ["CFR "] followed by the printed
    [hierarchy_type]; that is ["CFR None"] when [hierarchy_type] is absent,
    and exactly ["CFR part"] for a part record. *)
Theorem degraded_ref_without_title (item : dict) :
  present item "title_identifier" = false ->
  calculate_cfr_ref item = Ok ("CFR " +++ str (get item "hierarchy_type" VNone))
  /\ (lookup item "hierarchy_type" = None ->
      calculate_cfr_ref item = Ok "CFR None")
  /\ (lookup item "hierarchy_type" = Some (VStr "part") ->
      calculate_cfr_ref item = Ok "CFR part").
Proof.
  intros Ht.
  assert (E : calculate_cfr_ref item
              = Ok ("CFR " +++ str (get item "hierarchy_type" VNone))).
  { unfold calculate_cfr_ref. cbv zeta.
    rewrite <- present_get, Ht. reflexivity. }
  split; [exact E|].
  split; intros Hty; rewrite E; unfold get; rewrite Hty; reflexivity.
Qed.

Lemma degraded_ref_without_title_witness :
  calculate_cfr_ref
    [("hierarchy_type", VStr "part"); ("part_identifier", VStr "100")]
  = Ok "CFR part".
Proof.
  apply (degraded_ref_without_title
           [("hierarchy_type", VStr "part"); ("part_identifier", VStr "100")]);
    reflexivity.
Defined.

(** C6. For a record with a truthy title identifier and [hierarchy_type]
    ["subject_group"], the synthesizer returns the base of the first
    context identifier that is present and truthy, tried in the order
    appendix (with or without section), section, subpart (with or without
    part), part, subchapter (with or without chapter), or the bare
    ["{title_id} CFR"] when there is none, followed by
    [" (Subj Grp {subject_group_identifier})"] exactly when that identifier
    is truthy. *)
Theorem subject_group_priority (item : dict) :
  present item "title_identifier" = true ->
  get item "hierarchy_type" VNone = VStr "subject_group" ->
  calculate_cfr_ref item = Ok (subject_group_ref item).
Proof.
  intros Ht Hty. unfold calculate_cfr_ref. cbv zeta.
  rewrite Hty, <- present_get, Ht. cbn [negb]. eval_eq_lit.
  rewrite !has_truthy_present.
  unfold subject_group_ref, context_base, leading_context, subj_grp_suffix.
  cbn [find context_priority context_key].
  rewrite <- !present_get, !ident_get.
  by_presence; reflexivity.
Qed.

Lemma subject_group_priority_witness :
  calculate_cfr_ref
    [("hierarchy_type", VStr "subject_group"); ("title_identifier", VStr "26");
     ("part_identifier", VStr "200"); ("subject_group_identifier", VStr "3")]
  = Ok "26 CFR pt200 (Subj Grp 3)".
Proof.
  exact (subject_group_priority
    [("hierarchy_type", VStr "subject_group"); ("title_identifier", VStr "26");
     ("part_identifier", VStr "200"); ("subject_group_identifier", VStr "3")]
    eq_refl eq_refl).
Defined.

(** C10. For a subject-group record with a truthy title identifier and a
    truthy [subpart_identifier], but no truthy part, appendix or section
    identifier, the reference is
    ["{title_id} CFR (Subpart {subpart_identifier})"], followed by
    [" (Subj Grp {subject_group_identifier})"] exactly when that identifier
    is truthy. *)
Theorem subject_group_subpart_only (item : dict) :
  present item "title_identifier" = true ->
  get item "hierarchy_type" VNone = VStr "subject_group" ->
  present item "subpart_identifier" = true ->
  present item "part_identifier" = false ->
  present item "appendix_identifier" = false ->
  present item "section_identifier" = false ->
  calculate_cfr_ref item =
  Ok ((ident item "title_identifier" +++ " CFR (Subpart "
         +++ ident item "subpart_identifier" +++ ")")
      +++ (if present item "subject_group_identifier"
           then " (Subj Grp " +++ ident item "subject_group_identifier"
                  +++ ")"
           else EmptyString)).
Proof.
  intros Ht Hty Hsub Hpart Happ Hsec. unfold calculate_cfr_ref. cbv zeta.
  rewrite Hty, <- present_get, Ht. cbn [negb]. eval_eq_lit.
  rewrite !has_truthy_present, <- !present_get, !ident_get.
  by_presence; rewrite (append_assoc (str _) " CFR"); reflexivity.
Qed.

Lemma subject_group_subpart_only_witness :
  calculate_cfr_ref
    [("hierarchy_type", VStr "subject_group"); ("title_identifier", VStr "26");
     ("subpart_identifier", VStr "B"); ("subject_group_identifier", VStr "3")]
  = Ok "26 CFR (Subpart B) (Subj Grp 3)".
Proof.
  exact (subject_group_subpart_only
    [("hierarchy_type", VStr "subject_group"); ("title_identifier", VStr "26");
     ("subpart_identifier", VStr "B"); ("subject_group_identifier", VStr "3")]
    eq_refl eq_refl eq_refl eq_refl eq_refl eq_refl).
Defined.

(** ** The traversal *)

Lemma del_absent d k : contains k d = false -> del d k = d.
Proof.
  unfold contains. intros H. destruct (lookup d k) eqn:E; [discriminate|].
  clear H. unfold del. induction d as [|[k' v'] d IH]; simpl in *; auto.
  destruct (String.eqb k' k); [discriminate|]. simpl. now rewrite IH.
Qed.

Lemma filter_filter {A} (p q : A -> bool) (l : list A) :
  filter p (filter q l) = filter (fun x => q x && p x) l.
Proof.
  induction l as [|x l IH]; simpl; auto.
  destruct (q x); simpl; [destruct (p x)|]; now rewrite IH.
Qed.

Lemma remove_unwanted_spec a : remove_unwanted a = without_volatile a.
Proof.
  unfold remove_unwanted, without_volatile, remove_list. cbn [fold_left].
  assert (E : forall d k, (if contains k d then del d k else d) = del d k).
  { intros d k. destruct (contains k d) eqn:C; auto.
    symmetry. now apply del_absent. }
  rewrite !E. unfold del. rewrite !filter_filter.
  apply filter_ext. intros [k v]. unfold in_list. cbn [existsb fst].
  rewrite !(String.eqb_sym k).
  destruct (String.eqb "size" k), (String.eqb "volumes" k),
    (String.eqb "descendant_range" k); reflexivity.
Qed.

Lemma flatten_unfold a kids results parent_chain level order_id :
  flatten_all_elements_with_full_hierarchy (Node a kids) results parent_chain
    level order_id =
  let n := Node (remove_unwanted a) kids in
  element <- build_element (or_empty parent_chain) level n order_id ;;
  match kids with
  | None => Ok (or_empty results ++ [element], n, order_id + 1)
  | Some l =>
      '(results, l', order_id) <-
        flatten_children l (or_empty results ++ [element])
          (or_empty parent_chain ++ [n]) (level + 1) (order_id + 1) ;;
      Ok (results, Node (remove_unwanted a) (Some l'), order_id)
  end.
Proof.
  cbn [flatten_all_elements_with_full_hierarchy]. cbv zeta.
  fold (or_empty results). fold (or_empty parent_chain).
  destruct (build_element (or_empty parent_chain) level
              (Node (remove_unwanted a) kids) order_id) as [element|e];
    [cbn [bind] | reflexivity].
  destruct kids as [l|]; [|reflexivity].
  set (chain := or_empty parent_chain ++ [Node (remove_unwanted a) (Some l)]).
  clearbody chain.
  match goal with
  | |- bind ?x _ = bind ?y _ => assert (E : x = y); [|now rewrite E]
  end.
  generalize (or_empty results ++ [element]) (order_id + 1).
  induction l as [|child rest IH]; intros rs oid; [reflexivity|].
  cbn [flatten_children].
  destruct (flatten_all_elements_with_full_hierarchy child (Some rs)
              (Some chain) (level + 1) oid) as [[[rs1 c1] o1]|e];
    [cbn [bind] | reflexivity].
  rewrite IH. reflexivity.
Qed.

Lemma build_element_ok parent_chain level n order_id :
  build_element parent_chain level n order_id
  = Ok (element_of parent_chain level n order_id).
Proof.
  unfold build_element, element_of. cbv zeta.
  rewrite calculate_cfr_ref_text. reflexivity.
Qed.

Lemma records_of_app c l1 l2 :
  records_of c (l1 ++ l2)
  = records_of c l1 ++ records_of (c + Z.of_nat (List.length l1)) l2.
Proof.
  revert c. induction l1 as [|[[ch lv] n] l1 IH]; intros c.
  - simpl. now rewrite Z.add_0_r.
  - cbn [records_of app List.length]. rewrite IH.
    replace (c + 1 + Z.of_nat (List.length l1))
      with (c + Z.of_nat (S (List.length l1))) by lia.
    reflexivity.
Qed.

Lemma length_records_of c vs : List.length (records_of c vs) = List.length vs.
Proof.
  revert c. induction vs as [|[[ch lv] n] vs IH]; intros c; simpl; auto.
Qed.

Lemma length_flat_map_preorder chain level l :
  Forall (fun k => forall chain level,
            List.length (preorder chain level k) = size k) l ->
  List.length (flat_map (preorder chain level) l) = list_sum (map size l).
Proof.
  induction 1 as [|k l Hk _ IH]; simpl; auto.
  now rewrite length_app, Hk, IH.
Qed.

Lemma length_preorder n :
  forall chain level, List.length (preorder chain level n) = size n.
Proof.
  induction n as [a|a kids IH] using node_ind; intros chain level.
  - reflexivity.
  - cbn [preorder size List.length]. f_equal.
    now apply length_flat_map_preorder.
Qed.

Lemma flatten_children_spec l :
  Forall (fun n => forall results chain level oid,
    flatten_all_elements_with_full_hierarchy n results chain level oid
    = Ok (or_empty results
            ++ records_of oid (preorder (or_empty chain) level n),
          stripped n, oid + Z.of_nat (size n))) l ->
  forall results chain level oid,
    flatten_children l results chain level oid
    = Ok (results ++ records_of oid (flat_map (preorder chain level) l),
          map stripped l, oid + Z.of_nat (list_sum (map size l))).
Proof.
  induction 1 as [|k l Hk _ IH]; intros results chain level oid.
  - simpl. now rewrite app_nil_r, Z.add_0_r.
  - cbn [flatten_children]. rewrite Hk. cbn [bind or_empty].
    rewrite IH. cbn [bind flat_map map list_sum].
    rewrite records_of_app, length_preorder, <- app_assoc.
    cbn [list_sum fold_right]. now rewrite Nat2Z.inj_add, Z.add_assoc.
Qed.

Lemma flatten_spec n :
  forall results chain level oid,
    flatten_all_elements_with_full_hierarchy n results chain level oid
    = Ok (or_empty results
            ++ records_of oid (preorder (or_empty chain) level n),
          stripped n, oid + Z.of_nat (size n)).
Proof.
  induction n as [a|a kids IH] using node_ind;
    intros results chain level oid; rewrite flatten_unfold; cbv zeta;
    rewrite build_element_ok; cbn [bind].
  - cbn [preorder records_of stripped size].
    now rewrite remove_unwanted_spec.
  - rewrite (flatten_children_spec kids IH). cbn [bind].
    cbn [preorder records_of stripped size].
    rewrite remove_unwanted_spec, <- app_assoc. cbn [app].
    now rewrite Nat2Z.inj_succ, <- Z.add_1_l, Z.add_assoc.
Qed.

Lemma flatten_total root c0 :
  flatten root c0
  = Ok (records_of c0 (preorder [] 0 root), stripped root,
        c0 + Z.of_nat (size root)).
Proof. unfold flatten. now rewrite flatten_spec. Qed.

(** ** Keys written by the namespacing loops *)

Lemma in_keys_set d k v key :
  In key (keys (set d k v)) <-> key = k \/ In key (keys d).
Proof.
  rewrite keys_set. destruct (contains k d) eqn:C.
  - apply contains_iff in C. split; [tauto|]. intros [->|]; auto.
  - rewrite in_app_iff. simpl. intuition congruence.
Qed.

Lemma fold_left_inv {A B : Type} (P : A -> Prop) (f : A -> B -> A) l a :
  (forall a b, P a -> P (f a b)) -> P a -> P (fold_left f l a).
Proof.
  intros Hf. revert a. induction l as [|b l IH]; simpl; auto.
Qed.

Section NamespacingLoop.
Variable p : string -> bool.
Variable f : string -> string.

Lemma loop_wf l acc : wf acc -> wf (namespacing_loop p f l acc).
Proof.
  apply fold_left_inv. intros a b Ha.
  destruct (p (fst b)); auto using wf_set.
Qed.

Lemma loop_keys l acc key :
  In key (keys (namespacing_loop p f l acc)) ->
  In key (keys acc) \/
  exists k v, In (k, v) l /\ p k = true /\ key = f k.
Proof.
  unfold namespacing_loop. revert acc.
  induction l as [|[k v] l IH]; intros acc; simpl; auto.
  intros H. apply IH in H. destruct H as [H|(k' & v' & Hin & Hp & ->)].
  - destruct (p k) eqn:Hp; auto.
    apply in_keys_set in H. destruct H as [->|H]; auto.
    right. exists k, v. auto.
  - right. exists k', v'. auto.
Qed.




End NamespacingLoop.


Lemma wf_combined parent_chain : wf (combined_parent_fields parent_chain).
Proof.
  unfold combined_parent_fields. apply fold_left_inv.
  - intros acc a Hacc. unfold add_ancestor.
    now apply (loop_wf (fun k => negb (String.eqb k "children"))
                 (namespaced (attrs a))).
  - constructor.
Qed.

(** ** Records *)

Lemma nth_error_records_of vs :
  forall c i chain level n,
    nth_error vs i = Some (chain, level, n) ->
    nth_error (records_of c vs) i
    = Some (element_of chain level n (c + Z.of_nat i)).
Proof.
  induction vs as [|[[ch lv] m] vs IH]; intros c [|i] chain level n H;
    try discriminate.
  - injection H as -> -> ->. cbn [records_of nth_error].
    now rewrite Z.add_0_r.
  - cbn [records_of nth_error]. cbn [nth_error] in H.
    rewrite (IH _ _ _ _ _ H). do 2 f_equal. lia.
Qed.

Lemma flatten_record root c0 recs root' c1 i chain level n r :
  flatten root c0 = Ok (recs, root', c1) ->
  nth_error (preorder [] 0 root) i = Some (chain, level, n) ->
  nth_error recs i = Some r ->
  r = element_of chain level n (c0 + Z.of_nat i).
Proof.
  rewrite flatten_total. intros [= <- <- <-] Hv Hr.
  rewrite (nth_error_records_of _ _ _ _ _ _ Hv) in Hr. congruence.
Qed.

Lemma element_reserved parent_chain level n order_id :
  let r := element_of parent_chain level n order_id in
  lookup r "hierarchy_level" = Some (VInt level) /\
  lookup r "hierarchy_type" = Some (get (attrs n) "type" VNone) /\
  lookup r "order_id" = Some (VInt order_id) /\
  lookup r "is_leaf_node" = Some (VBool (no_children (children n))) /\
  exists s, lookup r "cfr_ref" = Some (VStr s).
Proof.
  unfold element_of, element_fields. cbv zeta.
  repeat split; try eexists; rewrite !lookup_set; reflexivity.
Qed.

Lemma not_reserved key :
  ~ In key reserved_keys ->
  String.eqb "hierarchy_level" key = false /\
  String.eqb "hierarchy_type" key = false /\
  String.eqb "order_id" key = false /\
  String.eqb "is_leaf_node" key = false /\
  String.eqb "cfr_ref" key = false.
Proof.
  unfold reserved_keys. intros H.
  repeat split; apply String.eqb_neq; intros <-; apply H; simpl; tauto.
Qed.

Lemma element_other parent_chain level n order_id key :
  ~ In key reserved_keys ->
  lookup (element_of parent_chain level n order_id) key =
  match lookup (combined_parent_fields parent_chain) key with
  | Some v => Some v
  | None => lookup (own_fields (attrs n)) key
  end.
Proof.
  intros H. apply not_reserved in H. destruct H as (H1 & H2 & H3 & H4 & H5).
  unfold element_of, element_fields. cbv zeta.
  rewrite !lookup_set, H1, H2, H3, H4, H5.
  apply lookup_update, wf_combined.
Qed.

Lemma order_ids_of_records vs :
  forall c,
    map order_id_of (records_of c vs)
    = map (fun z => Some (VInt z)) (count_from c (List.length vs)).
Proof.
  induction vs as [|[[ch lv] m] vs IH]; intros c; [reflexivity|].
  cbn [records_of map List.length count_from]. rewrite IH. f_equal.
  apply (element_reserved ch lv m c).
Qed.

(** The order ids of one call are consecutive from the value the counter
    has on entry, and the counter is left behind advanced by the node
    count. *)
Lemma order_ids_consecutive root c0 :
  exists recs root',
    flatten root c0 = Ok (recs, root', c0 + Z.of_nat (size root)) /\
    List.length recs = size root /\
    map order_id_of recs
    = map (fun z => Some (VInt z)) (count_from c0 (size root)).
Proof.
  exists (records_of c0 (preorder [] 0 root)), (stripped root).
  split; [apply flatten_total|].
  rewrite length_records_of, order_ids_of_records, length_preorder. auto.
Qed.

(** ** The claims on the flattener *)

(** A part nested in a part: the inner node's own field-set gives
    [part_identifier = "2"], the ancestor field-set gives
    [part_identifier = "1"], and the inner node's record holds ["1"], the
    ancestor's value. *)
Lemma own_value_is_shadowed :
  exists recs root' c1 r,
    flatten outer_part initial_default_order_id = Ok (recs, root', c1) /\
    nth_error (preorder [] 0 outer_part) 1
      = Some ([outer_part], 1, inner_part) /\
    nth_error recs 1%nat = Some r /\
    lookup (own_fields (attrs inner_part)) "part_identifier"
      = Some (VStr "2") /\
    lookup (combined_parent_fields [outer_part]) "part_identifier"
      = Some (VStr "1") /\
    lookup r "part_identifier" = Some (VStr "1") /\
    lookup r "part_identifier" <> Some (VStr "2").
Proof.
  do 4 eexists. repeat split; try reflexivity. discriminate.
Qed.

(** What [element.update(combined_parent_fields)] of line 625 does on a key
    that the node's own fields and the ancestor fields share (the five
    reserved keys apart): the ancestor value replaces the node's own. *)
Theorem ancestor_fields_take_precedence
    root c0 recs root' c1 i chain level n r key :
  flatten root c0 = Ok (recs, root', c1) ->
  nth_error (preorder [] 0 root) i = Some (chain, level, n) ->
  nth_error recs i = Some r ->
  ~ In key reserved_keys ->
  (forall v_own v_anc,
     lookup (own_fields (attrs n)) key = Some v_own ->
     lookup (combined_parent_fields chain) key = Some v_anc ->
     lookup r key = Some v_anc) /\
  (lookup (combined_parent_fields chain) key = None ->
   lookup r key = lookup (own_fields (attrs n)) key).
Proof.
  intros Hf Hv Hr Hkey.
  rewrite (flatten_record _ _ _ _ _ _ _ _ _ _ Hf Hv Hr).
  rewrite (element_other _ _ _ _ _ Hkey). split.
  - intros v_own v_anc _ ->. reflexivity.
  - intros ->. reflexivity.
Qed.

Lemma ancestor_fields_take_precedence_witness :
  lookup (element_of [outer_part] 1 inner_part 2) "part_identifier"
  = Some (VStr "1").
Proof.
  refine (proj1 (ancestor_fields_take_precedence outer_part 1
                   (records_of 1 (preorder [] 0 outer_part))
                   (stripped outer_part) 3 1%nat [outer_part] 1 inner_part
                   _ "part_identifier" _ _ _ _)
            (VStr "2") (VStr "1") _ _); try reflexivity.
  simpl. intuition discriminate.
Defined.

(** C1: the code against the claim. Among the ancestors the nearer one
    wins a shared key, but the node itself, the nearest of all, loses to
    its ancestors. Three parts A > B > C are recorded with the identifiers
    A, A, B: the records of B and C do not hold their own identifier. For a
    subject group nested in a subject group the inner record holds the
    outer identifier, and both records get the same [cfr_ref], the key
    under which the rows are upserted. *)
Theorem node_loses_to_its_ancestors :
  (exists rA rB rC,
     flatten part_A initial_default_order_id
     = Ok ([rA; rB; rC], part_A, 4) /\
     lookup (own_fields (attrs part_B)) "part_identifier" = Some (VStr "B") /\
     lookup (own_fields (attrs part_C)) "part_identifier" = Some (VStr "C") /\
     map (fun r => lookup r "part_identifier") [rA; rB; rC]
     = [Some (VStr "A"); Some (VStr "A"); Some (VStr "B")]) /\
  (exists rt rp ro ri,
     flatten title_with_nested_groups initial_default_order_id
     = Ok ([rt; rp; ro; ri], title_with_nested_groups, 5) /\
     lookup (own_fields (attrs inner_group)) "subject_group_identifier"
     = Some (VStr "sg2") /\
     lookup ri "subject_group_identifier" = Some (VStr "sg1") /\
     cfr_ref_of ro = Some (VStr "27 CFR pt4 (Subj Grp sg1)") /\
     cfr_ref_of ri = Some (VStr "27 CFR pt4 (Subj Grp sg1)")).
Proof.
  split.
  - do 3 eexists. repeat split; reflexivity.
  - do 4 eexists. repeat split; reflexivity.
Qed.

(** C2: what the code does on two calls in one process. The parameter
    default [order_id=[1]] is one list for all calls, so a second call on a
    one-node tree numbers its record 2, where the claim requires 1. The
    first call of a process does number its records 1..N. *)
Theorem default_counter_is_shared :
  (exists recs1 recs2,
     flatten_two_titles lone_title lone_title = Ok (recs1, recs2) /\
     map order_id_of recs1 = [Some (VInt 1)] /\
     map order_id_of recs2 = [Some (VInt 2)]) /\
  (forall t1 t2, exists recs1 recs2,
     flatten_two_titles t1 t2 = Ok (recs1, recs2) /\
     map order_id_of recs1
       = map (fun z => Some (VInt z)) (count_from 1 (size t1)) /\
     map order_id_of recs2
       = map (fun z => Some (VInt z))
           (count_from (1 + Z.of_nat (size t1)) (size t2))).
Proof.
  split.
  - do 2 eexists. repeat split; reflexivity.
  - intros t1 t2. unfold flatten_two_titles, initial_default_order_id.
    rewrite flatten_total. cbn [bind]. rewrite flatten_total. cbn [bind].
    do 2 eexists. split; [reflexivity|].
    now rewrite !order_ids_of_records, !length_preorder.
Qed.

(** C3, as stated, fails. On the tree of Scenario A the title's attribute
    [title_identifier] is namespaced to [title_title_identifier], the
    synthesizer finds no [title_identifier], and the section's reference is
    ["CFR section"], not ["21 CFR §100.1"]. *)
Lemma scenario_A_section_ref_is_degraded :
  exists recs root' c1 r,
    flatten scenario_A initial_default_order_id = Ok (recs, root', c1) /\
    nth_error recs 2%nat = Some r /\
    lookup r "hierarchy_type" = Some (VStr "section") /\
    lookup r "title_identifier" = None /\
    lookup r "title_title_identifier" = Some (VStr "21") /\
    cfr_ref_of r = Some (VStr "CFR section") /\
    cfr_ref_of r <> Some (VStr "21 CFR §100.1").
Proof.
  do 4 eexists. repeat split; try reflexivity. discriminate.
Qed.

(** C3, amended. On the tree of Scenario A, the first call of a process
    produces exactly 3 records, with [order_id] 1, 2, 3 in that order and
    [hierarchy_level] 0, 1, 2, and the section record's [cfr_ref] is
    ["CFR section"]; the tree is left as it was. *)
Theorem scenario_A_records :
  exists r1 r2 r3,
    flatten scenario_A initial_default_order_id
    = Ok ([r1; r2; r3], scenario_A, 4) /\
    map order_id_of [r1; r2; r3]
    = [Some (VInt 1); Some (VInt 2); Some (VInt 3)] /\
    map level_of [r1; r2; r3]
    = [Some (VInt 0); Some (VInt 1); Some (VInt 2)] /\
    lookup r3 "hierarchy_type" = Some (VStr "section") /\
    cfr_ref_of r3 = Some (VStr "CFR section").
Proof.
  do 3 eexists. repeat split; reflexivity.
Qed.

(** The same tree with the attribute named [identifier], as the structure
    documents name it, gives the reference Scenario A expects. *)
Lemma scenario_A_identifier_records :
  exists r1 r2 r3,
    flatten scenario_A_identifier initial_default_order_id
    = Ok ([r1; r2; r3], scenario_A_identifier, 4) /\
    map cfr_ref_of [r1; r2; r3]
    = [Some (VStr "21 CFR"); Some (VStr "21 CFR pt100");
       Some (VStr "21 CFR §100.1")].
Proof.
  do 3 eexists. repeat split; reflexivity.
Qed.

Lemma preorder_descends n :
  forall chain level,
    Forall (fun v : visit =>
              exists rest, fst (fst v) = chain ++ rest /\
                           snd (fst v) = level + Z.of_nat (List.length rest))
      (preorder chain level n).
Proof.
  assert (Hhead : forall (chain : list node) (level : Z),
             exists rest : list node,
               chain = chain ++ rest /\
               level = level + Z.of_nat (List.length rest)).
  { intros chain level. exists []. rewrite app_nil_r. simpl. split; auto; lia. }
  induction n as [a|a kids IH] using node_ind; intros chain level;
    cbn [preorder]; constructor; cbn [fst snd]; auto.
  apply Forall_flat_map. rewrite Forall_forall in IH |- *.
  intros k Hk. eapply Forall_impl; [|apply (IH k Hk)].
  intros [[ch lv] m]. cbn [fst snd]. intros (rest & -> & ->).
  exists (Node (remove_unwanted a) (Some kids) :: rest).
  rewrite <- app_assoc. cbn [app List.length]. split; auto; lia.
Qed.

Lemma preorder_tail_descends chain level a kids :
  Forall (fun v : visit =>
            exists rest,
              fst (fst v) = chain ++ Node (remove_unwanted a) kids :: rest /\
              snd (fst v) = level + 1 + Z.of_nat (List.length rest))
    (tl (preorder chain level (Node a kids))).
Proof.
  cbn [preorder tl]. destruct kids as [l|]; [|constructor].
  apply Forall_flat_map. apply Forall_forall. intros k _.
  eapply Forall_impl; [|apply preorder_descends].
  intros [[ch lv] m]. cbn [fst snd]. intros (rest & -> & ->).
  exists rest. now rewrite <- app_assoc.
Qed.

(** C7. The output of flatten is in pre-order. The records are, position by
    position, those of the visits of [preorder]. In [preorder] the visit of
    a node comes first; all that follows in its block are visits below that
    node (their ancestor chain extends the node's chain by the node itself),
    namely the complete blocks of its children's subtrees, each child's
    block after the blocks of the children to its left and before the
    blocks of the children to its right. *)
Theorem flatten_is_preorder :
  (forall root c0,
     flatten root c0
     = Ok (records_of c0 (preorder [] 0 root), stripped root,
           c0 + Z.of_nat (size root))) /\
  (forall c chain level n vs,
     records_of c ((chain, level, n) :: vs)
     = element_of chain level n c :: records_of (c + 1) vs) /\
  (forall chain level a left child right,
     let n1 := Node (remove_unwanted a) (Some (left ++ child :: right)) in
     preorder chain level (Node a (Some (left ++ child :: right)))
     = (chain, level, n1)
         :: flat_map (preorder (chain ++ [n1]) (level + 1)) left
         ++ preorder (chain ++ [n1]) (level + 1) child
         ++ flat_map (preorder (chain ++ [n1]) (level + 1)) right) /\
  (forall chain level a,
     preorder chain level (Node a None)
     = [(chain, level, Node (remove_unwanted a) None)]) /\
  (forall chain level n, List.length (preorder chain level n) = size n) /\
  (forall chain level a kids,
     Forall (fun v : visit =>
               exists rest,
                 fst (fst v) = chain ++ Node (remove_unwanted a) kids :: rest /\
                 snd (fst v) = level + 1 + Z.of_nat (List.length rest))
       (tl (preorder chain level (Node a kids)))).
Proof.
  split; [exact flatten_total|].
  split; [reflexivity|].
  split; [|split; [reflexivity |
           split; [intros; apply length_preorder
                  | intros; apply preorder_tail_descends]]].
  intros chain level a left child right n1. cbn [preorder]. fold n1.
  now rewrite flat_map_app.
Qed.

(** ** Where the keys of a record come from *)

Lemma in_list_iff k l : in_list k l = true <-> In k l.
Proof.
  unfold in_list. rewrite existsb_exists. split.
  - intros (x & Hx & E). apply String.eqb_eq in E. now subst.
  - intros H. exists k. split; auto. apply String.eqb_refl.
Qed.

Lemma keys_update d o key :
  In key (keys (update d o)) -> In key (keys d) \/ In key (keys o).
Proof.
  unfold update. revert d.
  induction o as [|[k v] o IH]; intros d; simpl; auto.
  intros H. apply IH in H.
  destruct H as [H|H]; [|unfold keys in *; simpl; tauto].
  apply in_keys_set in H. unfold keys in *. simpl in *.
  intuition congruence.
Qed.

Lemma keys_element parent_chain level n order_id key :
  In key (keys (element_of parent_chain level n order_id)) ->
  In key reserved_keys \/
  In key (keys (combined_parent_fields parent_chain)) \/
  In key (keys (own_fields (attrs n))).
Proof.
  unfold element_of, element_fields. cbv zeta. intros H.
  repeat (apply in_keys_set in H; destruct H as [->|H];
          [left; simpl; tauto|]).
  apply keys_update in H. tauto.
Qed.

Lemma in_keys d k : In k (keys d) <-> exists v, In (k, v) d.
Proof.
  unfold keys. rewrite in_map_iff. split.
  - intros ([k' v] & E & H). simpl in E. subst. eauto.
  - intros (v & H). exists (k, v). auto.
Qed.

Lemma keys_add_ancestors l acc key :
  In key (keys (fold_left add_ancestor l acc)) ->
  In key (keys acc) \/
  exists a k, In a l /\ In k (keys (attrs a)) /\ k <> "children"
              /\ key = namespaced (attrs a) k.
Proof.
  revert acc. induction l as [|a l IH]; intros acc; simpl; auto.
  intros H. apply IH in H. destruct H as [H|(a' & k & Ha & Hk & Hc & E)].
  - unfold add_ancestor in H.
    apply (loop_keys (fun k => negb (String.eqb k "children"))
             (namespaced (attrs a))) in H.
    destruct H as [H|(k & v & Hin & Hp & E)]; auto.
    right. exists a, k. repeat split; auto.
    + apply in_keys. eauto.
    + intros ->. discriminate.
  - right. exists a', k. auto.
Qed.

Lemma keys_combined parent_chain key :
  In key (keys (combined_parent_fields parent_chain)) ->
  exists a k, In a parent_chain /\ In k (keys (attrs a)) /\ k <> "children"
              /\ key = namespaced (attrs a) k.
Proof.
  intros H. apply keys_add_ancestors in H. destruct H as [[]|H]. exact H.
Qed.

Lemma keys_own a key :
  In key (keys (own_fields a)) ->
  exists k, In k (keys a) /\ in_list k ["children"; "type"] = false
            /\ key = namespaced a k.
Proof.
  unfold own_fields. intros H.
  apply (loop_keys (fun k => negb (in_list k ["children"; "type"]))
           (namespaced a)) in H.
  destruct H as [[]|(k & v & Hin & Hp & E)].
  exists k. repeat split; auto.
  - apply in_keys. eauto.
  - now apply negb_true_iff in Hp.
Qed.

Lemma lookup_without_volatile a k :
  lookup (without_volatile a) k
  = if in_list k remove_list then None else lookup a k.
Proof.
  unfold without_volatile. induction a as [|[k' v'] a IH].
  - cbn [filter lookup]. now destruct (in_list k remove_list).
  - cbn [filter fst lookup].
    destruct (in_list k' remove_list) eqn:E'; cbn [negb lookup].
    + rewrite IH. destruct (String.eqb k' k) eqn:E; auto.
      apply String.eqb_eq in E. subst. now rewrite E'.
    + destruct (String.eqb k' k) eqn:E; [|exact IH].
      apply String.eqb_eq in E. subst. now rewrite E'.
Qed.

Lemma remove_unwanted_clean a kids : clean (Node (remove_unwanted a) kids).
Proof.
  intros k Hk. cbn [attrs]. unfold contains.
  rewrite remove_unwanted_spec, lookup_without_volatile.
  apply in_list_iff in Hk. now rewrite Hk.
Qed.

Lemma clean_keys a k : clean a -> In k (keys (attrs a)) -> ~ In k remove_list.
Proof.
  intros Hc Hk Hr. apply Hc in Hr. apply contains_iff in Hk. congruence.
Qed.

Lemma preorder_clean n :
  forall chain level,
    Forall clean chain ->
    Forall (fun v : visit => Forall clean (fst (fst v) ++ [snd v]))
      (preorder chain level n).
Proof.
  induction n as [a|a kids IH] using node_ind; intros chain level Hc;
    cbn [preorder]; constructor; cbn [fst snd].
  - apply Forall_app. split; auto.
    constructor; auto using remove_unwanted_clean.
  - constructor.
  - apply Forall_app. split; auto.
    constructor; auto using remove_unwanted_clean.
  - apply Forall_flat_map. rewrite Forall_forall in IH |- *.
    intros k Hk. apply IH; auto.
    apply Forall_app. split; auto.
    constructor; auto using remove_unwanted_clean.
Qed.

Lemma is_volatile_remove_list k : in_list k remove_list = is_volatile k.
Proof.
  unfold in_list, remove_list, is_volatile. cbn [existsb].
  now rewrite orb_false_r, orb_assoc.
Qed.

Lemma drop_volatile_spec a : without_volatile a = drop_volatile a.
Proof.
  unfold without_volatile, drop_volatile. apply filter_ext.
  intros kv. now rewrite is_volatile_remove_list.
Qed.

Lemma expected_tree_spec n : stripped n = expected_tree n.
Proof.
  induction n as [a|a kids IH] using node_ind;
    cbn [stripped expected_tree]; rewrite drop_volatile_spec; auto.
  do 2 f_equal. apply map_ext_in. rewrite Forall_forall in IH. auto.
Qed.

Lemma is_volatile_iff k :
  is_volatile k = true <->
  k = "size" \/ k = "volumes" \/ k = "descendant_range".
Proof.
  unfold is_volatile. rewrite !orb_true_iff, !String.eqb_eq. tauto.
Qed.

Lemma volatile_key_not_reserved s k :
  k = "size" \/ k = "volumes" \/ k = "descendant_range" ->
  ~ In (s +++ "_" +++ k) reserved_keys.
Proof.
  unfold reserved_keys. simpl.
  intros [ -> | [ -> | -> ] ] [H|[H|[H|[H|[H|[]]]]]];
    repeat (destruct s as [|? s]; simpl in H;
            [discriminate H | injection H as _ H]);
    destruct s; discriminate H.
Qed.

Lemma clean_lookup a k :
  clean a -> k = "size" \/ k = "volumes" \/ k = "descendant_range" ->
  lookup (attrs a) k = None.
Proof.
  intros Hc Hk.
  assert (Hin : In k remove_list)
    by (unfold remove_list; simpl; intuition congruence).
  apply Hc in Hin. unfold contains in Hin.
  now destruct (lookup (attrs a) k).
Qed.

(** C8, as stated, fails in its second part. The node [sized_child] has
    type [a_b] and a [size]; its parent has type [a] and an attribute
    [b_size]. The [size] is deleted, yet the child's record holds the key
    [a_b_size], the namespaced key of its [size]: it comes from the
    parent's [b_size]. *)
Lemma volatile_named_key_in_record :
  exists recs root' c1 r,
    flatten sized_parent initial_default_order_id = Ok (recs, root', c1) /\
    nth_error (preorder [] 0 sized_parent) 1
      = Some ([sized_parent], 1, Node [("type", VStr "a_b")] None) /\
    nth_error recs 1%nat = Some r /\
    lookup (attrs sized_child) "size" = Some (VInt 10) /\
    namespaced (attrs sized_child) "size" = "a_b_size" /\
    contains "a_b_size" r = true /\
    lookup r "a_b_size" = Some (VInt 1).
Proof. do 4 eexists. repeat split; reflexivity. Qed.

(** C8, amended. Flatten leaves the input tree with the keys [size],
    [volumes] and [descendant_range] deleted from every node and
    everything else in place. When a node is recorded, neither it nor any
    of its ancestors holds one of the three keys, and every key of the
    record is one of the five reserved keys or the namespaced form of an
    attribute, other than those three, of the node itself or of one of its
    ancestors. So the namespaced key of a [size], [volumes] or
    [descendant_range] of the node or of an ancestor is in the record only
    if another attribute of the node or of an ancestor is namespaced to the
    same text. *)
Theorem volatile_keys_are_deleted
    root c0 recs root' c1 i chain level n r :
  flatten root c0 = Ok (recs, root', c1) ->
  nth_error (preorder [] 0 root) i = Some (chain, level, n) ->
  nth_error recs i = Some r ->
  root' = expected_tree root /\
  (forall a, In a (chain ++ [n]) ->
     lookup (attrs a) "size" = None /\
     lookup (attrs a) "volumes" = None /\
     lookup (attrs a) "descendant_range" = None) /\
  (forall key, In key (keys r) ->
     In key reserved_keys \/
     exists a k, In a (chain ++ [n]) /\ In k (keys (attrs a)) /\
                 k <> "size" /\ k <> "volumes" /\ k <> "descendant_range" /\
                 key = namespaced (attrs a) k) /\
  (forall a k, In a (chain ++ [n]) ->
     k = "size" \/ k = "volumes" \/ k = "descendant_range" ->
     (forall a' k', In a' (chain ++ [n]) -> In k' (keys (attrs a')) ->
                    namespaced (attrs a') k' <> namespaced (attrs a) k) ->
     ~ In (namespaced (attrs a) k) (keys r)).
Proof.
  intros Hf Hv Hr.
  pose proof (flatten_record _ _ _ _ _ _ _ _ _ _ Hf Hv Hr) as ->.
  rewrite flatten_total in Hf. injection Hf as _ <- _.
  assert (Hclean : Forall clean (chain ++ [n])).
  { pose proof (preorder_clean root [] 0 (Forall_nil _)) as H.
    rewrite Forall_forall in H.
    apply (H (chain, level, n)). eapply nth_error_In; eauto. }
  rewrite Forall_forall in Hclean.
  assert (Hprov : forall key,
            In key (keys (element_of chain level n (c0 + Z.of_nat i))) ->
            In key reserved_keys \/
            exists a k, In a (chain ++ [n]) /\ In k (keys (attrs a)) /\
                        k <> "size" /\ k <> "volumes" /\
                        k <> "descendant_range" /\
                        key = namespaced (attrs a) k).
  { intros key Hkey. apply keys_element in Hkey.
    assert (Hsplit : forall a k, In a (chain ++ [n]) ->
              In k (keys (attrs a)) ->
              k <> "size" /\ k <> "volumes" /\ k <> "descendant_range").
    { intros a k Ha Hk.
      pose proof (clean_keys a k (Hclean a Ha) Hk) as Hnot.
      unfold remove_list in Hnot. simpl in Hnot.
      repeat split; intros ->; apply Hnot; tauto. }
    destruct Hkey as [H|[H|H]]; auto; right.
    - apply keys_combined in H. destruct H as (a & k & Ha & Hk & _ & E).
      assert (Ha' : In a (chain ++ [n])) by (apply in_or_app; auto).
      exists a, k. destruct (Hsplit a k Ha' Hk) as (? & ? & ?). auto 10.
    - apply keys_own in H. destruct H as (k & Hk & _ & E).
      assert (Hn : In n (chain ++ [n])) by (apply in_or_app; simpl; auto).
      exists n, k. destruct (Hsplit n k Hn Hk) as (? & ? & ?). auto 10. }
  split; [apply expected_tree_spec|].
  split.
  { intros a Ha. repeat split; apply clean_lookup; auto. }
  split; [exact Hprov|].
  intros a k Ha Hk Hother Hin. apply Hprov in Hin.
  destruct Hin as [Hres|(a' & k' & Ha' & Hk' & _ & _ & _ & E)].
  - unfold namespaced in Hres. now apply volatile_key_not_reserved in Hres.
  - symmetry in E. now apply (Hother a' k').
Qed.

Lemma volatile_keys_are_deleted_witness :
  let chain := [Node [("type", VStr "title"); ("identifier", VStr "7")]
                  (children with_volatile)] in
  let n := Node [("identifier", VStr "1"); ("type", VStr "part")] None in
  Node [("type", VStr "title"); ("identifier", VStr "7")] (Some [n])
  = expected_tree with_volatile /\
  (lookup (attrs n) "size" = None /\
   lookup (attrs n) "volumes" = None /\
   lookup (attrs n) "descendant_range" = None) /\
  Forall (fun key => key <> "part_size" /\ key <> "title_size")
    (keys (element_of chain 1 n 2)).
Proof.
  intros chain n.
  pose proof (volatile_keys_are_deleted with_volatile 1
                (records_of 1 (preorder [] 0 with_volatile))
                (Node [("type", VStr "title"); ("identifier", VStr "7")]
                   (Some [n]))
                3 1%nat chain 1 n (element_of chain 1 n 2)
                eq_refl eq_refl eq_refl) as (H1 & H2 & _ & H4).
  split; [exact H1|]. split.
  - apply H2. simpl. auto.
  - apply Forall_forall. intros key Hkey. split; intros ->.
    + apply (H4 n "size"); simpl; auto.
      intros a' k' [<-|[<-|[]]] Hk'; simpl in Hk';
        repeat (destruct Hk' as [<-|Hk']; [discriminate|]); destruct Hk'.
    + apply (H4 (Node [("type", VStr "title"); ("identifier", VStr "7")]
                   (children with_volatile)) "size"); simpl; auto.
      intros a' k' [<-|[<-|[]]] Hk'; simpl in Hk';
        repeat (destruct Hk' as [<-|Hk']; [discriminate|]); destruct Hk'.
Defined.

(** ** Ancestor types *)












(** ** Further properties of the reference synthesizer *)

Lemma append_nil_r (s : string) : s +++ EmptyString = s.
Proof. induction s as [|c s IH]; simpl; [reflexivity | now rewrite IH]. Qed.

Lemma append_nonempty_l (a b : string) :
  a <> EmptyString -> a +++ b <> EmptyString.
Proof. destruct a; simpl; [congruence | discriminate]. Qed.

Lemma base_ref_nonempty (t : string) : t +++ " CFR" <> EmptyString.
Proof. destruct t; discriminate. Qed.

Ltac ref_shape_step :=
  match goal with
  | H : present ?d ?k = true |- context [getitem ?d ?k] =>
      rewrite (present_getitem d k H)
  | |- context [has_truthy ?d ?k] =>
      rewrite (has_truthy_present d k); cbn [bind]
  | |- context [bind (Ok _) _] => cbn [bind]
  | |- context [if ?c then _ else _] => destruct c eqn:?
  end.

Lemma ref_with_title_shape item :
  present item "title_identifier" = true ->
  exists tail, calculate_cfr_ref item = Ok (base_ref_of item +++ tail).
Proof.
  intros Ht. unfold calculate_cfr_ref, base_ref_of. cbv zeta.
  rewrite <- present_get, Ht, ident_get. cbn [negb].
  repeat ref_shape_step;
    eexists; f_equal;
    first [ reflexivity
          | symmetry; apply append_nil_r
          | apply append_assoc ].
Qed.

(** X1. A record with a truthy title identifier always gets a reference
    that starts with ["{title_id} CFR"], whatever its type and its other
    fields. *)
Theorem reference_starts_with_title (item : dict) :
  present item "title_identifier" = true ->
  exists tail,
    calculate_cfr_ref item
    = Ok ((ident item "title_identifier" +++ " CFR") +++ tail).
Proof. exact (ref_with_title_shape item). Qed.

Lemma reference_starts_with_title_witness :
  exists tail,
    calculate_cfr_ref
      [("hierarchy_type", VStr "subpart"); ("title_identifier", VInt 27);
       ("part_identifier", VStr "4"); ("subpart_identifier", VStr "B")]
    = Ok ((ident [("hierarchy_type", VStr "subpart");
                  ("title_identifier", VInt 27);
                  ("part_identifier", VStr "4");
                  ("subpart_identifier", VStr "B")] "title_identifier"
           +++ " CFR") +++ tail).
Proof.
  exact (reference_starts_with_title
    [("hierarchy_type", VStr "subpart"); ("title_identifier", VInt 27);
     ("part_identifier", VStr "4"); ("subpart_identifier", VStr "B")]
    eq_refl).
Defined.

Lemma ref_nonempty item :
  exists s, calculate_cfr_ref item = Ok s /\ truthy (VStr s) = true.
Proof.
  destruct (present item "title_identifier") eqn:Ht.
  - destruct (ref_with_title_shape item Ht) as [tail E].
    eexists. split; [exact E|]. cbn [truthy].
    apply negb_true_iff, String.eqb_neq, append_nonempty_l.
    apply base_ref_nonempty.
  - unfold calculate_cfr_ref. cbv zeta. rewrite <- present_get, Ht.
    cbn [negb]. eexists. split; reflexivity.
Qed.

(** X2. The synthesizer never returns the empty string: every reference is
    truthy, so a test [if not cfr_ref] on it never succeeds. *)
Theorem reference_never_empty :
  forall item : dict,
    exists s, calculate_cfr_ref item = Ok s /\ truthy (VStr s) = true.
Proof. exact ref_nonempty. Qed.

Lemma calculate_cfr_ref_agree d1 d2 :
  agree_on read_keys d1 d2 -> calculate_cfr_ref d1 = calculate_cfr_ref d2.
Proof.
  intros H. unfold calculate_cfr_ref, has_truthy, getitem, contains, get.
  rewrite !(H "hierarchy_type"), !(H "title_identifier"),
    !(H "chapter_identifier"), !(H "subchapter_identifier"),
    !(H "part_identifier"), !(H "subpart_identifier"),
    !(H "section_identifier"), !(H "appendix_identifier"),
    !(H "subject_group_identifier") by (simpl; tauto).
  reflexivity.
Qed.

(** X3. The reference depends on the record only through nine keys:
    [hierarchy_type], [title_identifier] and the seven other
    [..._identifier] keys. Two records that agree on these get the same
    reference. *)
Theorem reference_reads_nine_keys (d1 d2 : dict) :
  agree_on read_keys d1 d2 -> calculate_cfr_ref d1 = calculate_cfr_ref d2.
Proof. exact (calculate_cfr_ref_agree d1 d2). Qed.

Lemma reference_reads_nine_keys_witness :
  calculate_cfr_ref
    [("hierarchy_type", VStr "part"); ("title_identifier", VStr "27");
     ("part_identifier", VStr "4"); ("part_label", VStr "Part 4")]
  = calculate_cfr_ref
      [("order_id", VInt 9); ("part_identifier", VStr "4");
       ("title_identifier", VStr "27"); ("hierarchy_type", VStr "part")].
Proof.
  apply reference_reads_nine_keys.
  intros k Hk. simpl in Hk.
  repeat (destruct Hk as [<-|Hk]; [reflexivity|]). destruct Hk.
Defined.

Ltac enter_typed_branch Ht Hty :=
  unfold calculate_cfr_ref, base_ref_of; cbv zeta;
  rewrite Hty, <- present_get, Ht, ?ident_get; cbn [negb]; eval_eq_lit.

(** X4. For a chapter, part or section record with a truthy title
    identifier the reference is the base followed by [" ch"], [" pt"] or
    [" §"] and the record's own-level identifier when that identifier is
    truthy, and the bare base otherwise. *)
Theorem single_identifier_reference (item : dict) (ty tag key : string) :
  present item "title_identifier" = true ->
  get item "hierarchy_type" VNone = VStr ty ->
  single_rule ty = Some (tag, key) ->
  calculate_cfr_ref item
  = Ok (if present item key
        then base_ref_of item +++ tag +++ ident item key
        else base_ref_of item).
Proof.
  intros Ht Hty Hrule. unfold single_rule in Hrule.
  destruct (String.eqb ty "chapter") eqn:E1;
    [apply String.eqb_eq in E1; subst ty; injection Hrule as <- <-|].
  { enter_typed_branch Ht Hty. now rewrite <- present_get. }
  destruct (String.eqb ty "part") eqn:E2;
    [apply String.eqb_eq in E2; subst ty; injection Hrule as <- <-|].
  { enter_typed_branch Ht Hty. now rewrite <- present_get. }
  destruct (String.eqb ty "section") eqn:E3;
    [apply String.eqb_eq in E3; subst ty; injection Hrule as <- <-
    | discriminate].
  enter_typed_branch Ht Hty. now rewrite <- present_get.
Qed.

Lemma single_identifier_reference_witness :
  calculate_cfr_ref
    [("hierarchy_type", VStr "section"); ("title_identifier", VStr "27");
     ("part_identifier", VStr "4"); ("section_identifier", VStr "4.1")]
  = Ok "27 CFR §4.1".
Proof.
  exact (single_identifier_reference
    [("hierarchy_type", VStr "section"); ("title_identifier", VStr "27");
     ("part_identifier", VStr "4"); ("section_identifier", VStr "4.1")]
    "section" " §" "section_identifier" eq_refl eq_refl eq_refl).
Defined.

(** X5. For a subchapter or subpart record with a truthy title identifier
    the reference names the parent and the node, [" ch{c}-{s}"] or
    [" pt{p}-{s}"], only when both identifiers are truthy; when either is
    missing the reference is the bare base and the identifier that is
    present is not shown. *)
Theorem paired_identifier_reference (item : dict) (ty tag k1 k2 : string) :
  present item "title_identifier" = true ->
  get item "hierarchy_type" VNone = VStr ty ->
  paired_rule ty = Some (tag, k1, k2) ->
  calculate_cfr_ref item
  = Ok (if present item k1 && present item k2
        then base_ref_of item +++ tag +++ ident item k1 +++ "-"
               +++ ident item k2
        else base_ref_of item).
Proof.
  intros Ht Hty Hrule. unfold paired_rule in Hrule.
  destruct (String.eqb ty "subchapter") eqn:E1;
    [apply String.eqb_eq in E1; subst ty; injection Hrule as <- <- <-|].
  { enter_typed_branch Ht Hty. rewrite <- !present_get.
    now destruct (present item "chapter_identifier" &&
                  present item "subchapter_identifier"). }
  destruct (String.eqb ty "subpart") eqn:E2;
    [apply String.eqb_eq in E2; subst ty; injection Hrule as <- <- <-
    | discriminate].
  enter_typed_branch Ht Hty. rewrite <- !present_get.
  now destruct (present item "part_identifier" &&
                present item "subpart_identifier").
Qed.

Lemma paired_identifier_reference_witness :
  calculate_cfr_ref
    [("hierarchy_type", VStr "subpart"); ("title_identifier", VStr "27");
     ("subpart_identifier", VStr "B")]
  = Ok "27 CFR".
Proof.
  exact (paired_identifier_reference
    [("hierarchy_type", VStr "subpart"); ("title_identifier", VStr "27");
     ("subpart_identifier", VStr "B")]
    "subpart" " pt" "part_identifier" "subpart_identifier"
    eq_refl eq_refl eq_refl).
Defined.

(** X6. For an appendix record with a truthy title identifier the
    reference is the base, then the context ([" §{section}"] when a section
    identifier is truthy, else [" pt{part}"] when a part identifier is
    truthy, else nothing: a section hides the part), then
    [" ( {appendix})"] when the appendix identifier is truthy. *)
Theorem appendix_reference (item : dict) :
  present item "title_identifier" = true ->
  get item "hierarchy_type" VNone = VStr "appendix" ->
  calculate_cfr_ref item
  = Ok ((base_ref_of item
           +++ (if present item "section_identifier"
                then " §" +++ ident item "section_identifier"
                else if present item "part_identifier"
                     then " pt" +++ ident item "part_identifier"
                     else EmptyString))
        +++ (if present item "appendix_identifier"
             then " ( " +++ ident item "appendix_identifier" +++ ")"
             else EmptyString)).
Proof.
  intros Ht Hty. enter_typed_branch Ht Hty.
  rewrite !has_truthy_present, <- !present_get.
  by_presence; rewrite ?append_nil_r, ?append_assoc; reflexivity.
Qed.

Lemma appendix_reference_witness :
  calculate_cfr_ref
    [("hierarchy_type", VStr "appendix"); ("title_identifier", VStr "19");
     ("part_identifier", VStr "9"); ("section_identifier", VStr "5");
     ("appendix_identifier", VStr "A")]
  = Ok "19 CFR §5 ( A)".
Proof.
  exact (appendix_reference
    [("hierarchy_type", VStr "appendix"); ("title_identifier", VStr "19");
     ("part_identifier", VStr "9"); ("section_identifier", VStr "5");
     ("appendix_identifier", VStr "A")]
    eq_refl eq_refl).
Defined.

Lemma eq_lit_false v lit : v <> VStr lit -> eq_lit v lit = false.
Proof.
  destruct v as [| | |s]; simpl; auto. intros H.
  apply String.eqb_neq. congruence.
Qed.

(** X7. A record with a truthy title identifier whose [hierarchy_type] is
    none of the eight known tags (an unknown string, a non-string value, or
    no type at all) gets the base followed by the printed type in
    parentheses; an absent type prints as [(None)]. *)
Theorem unknown_type_reference (item : dict) :
  present item "title_identifier" = true ->
  (forall ty, In ty known_types ->
              get item "hierarchy_type" VNone <> VStr ty) ->
  calculate_cfr_ref item
  = Ok (base_ref_of item +++ " ("
          +++ str (get item "hierarchy_type" VNone) +++ ")").
Proof.
  intros Ht Hty. unfold calculate_cfr_ref, base_ref_of. cbv zeta.
  rewrite <- present_get, Ht, ident_get. cbn [negb].
  rewrite !eq_lit_false by (apply Hty; simpl; tauto).
  reflexivity.
Qed.

Lemma unknown_type_reference_witness :
  calculate_cfr_ref [("title_identifier", VStr "27")] = Ok "27 CFR (None)".
Proof.
  apply (unknown_type_reference [("title_identifier", VStr "27")]).
  - reflexivity.
  - intros ty _. discriminate.
Defined.

(** ** Further properties of the flattener *)

Lemma nth_error_records_of_inv vs :
  forall c i r,
    nth_error (records_of c vs) i = Some r ->
    exists chain level n,
      nth_error vs i = Some (chain, level, n) /\
      r = element_of chain level n (c + Z.of_nat i).
Proof.
  induction vs as [|[[ch lv] m] vs IH]; intros c [|i] r H;
    cbn [records_of nth_error] in *; try discriminate.
  - injection H as <-. exists ch, lv, m. now rewrite Z.add_0_r.
  - apply IH in H. destruct H as (chain & level & n & Hv & ->).
    exists chain, level, n. split; auto. f_equal. lia.
Qed.

Lemma flatten_record_inv root c0 recs root' c1 i r :
  flatten root c0 = Ok (recs, root', c1) ->
  nth_error recs i = Some r ->
  exists chain level n,
    nth_error (preorder [] 0 root) i = Some (chain, level, n) /\
    r = element_of chain level n (c0 + Z.of_nat i).
Proof.
  rewrite flatten_total. intros [= <- <- <-] Hr.
  now apply nth_error_records_of_inv.
Qed.

(** X8. The leaf flag of every record is a boolean that is true exactly
    when the node has no [children] key or an empty [children] list. *)
Theorem leaf_flag_correct root c0 recs root' c1 i chain level n r :
  flatten root c0 = Ok (recs, root', c1) ->
  nth_error (preorder [] 0 root) i = Some (chain, level, n) ->
  nth_error recs i = Some r ->
  exists b,
    lookup r "is_leaf_node" = Some (VBool b) /\
    (b = true <-> children n = None \/ children n = Some []).
Proof.
  intros Hf Hv Hr.
  rewrite (flatten_record _ _ _ _ _ _ _ _ _ _ Hf Hv Hr).
  exists (no_children (children n)). split.
  - apply element_reserved.
  - destruct (children n) as [[|k l]|]; simpl.
    + split; auto.
    + split; [discriminate | intros [H|H]; discriminate].
    + split; auto.
Qed.

Lemma leaf_flag_correct_witness :
  exists b,
    lookup (element_of [outer_part] 1 inner_part 2) "is_leaf_node"
    = Some (VBool b) /\
    (b = true <->
     children inner_part = None \/ children inner_part = Some []).
Proof.
  exact (leaf_flag_correct outer_part 1
           (records_of 1 (preorder [] 0 outer_part)) (stripped outer_part)
           3 1%nat [outer_part] 1 inner_part
           (element_of [outer_part] 1 inner_part 2)
           eq_refl eq_refl eq_refl).
Defined.

(** X9. The [hierarchy_level] of every record of a top-level call is the
    number of the node's ancestors: 0 for the root, one more for each step
    down. *)
Theorem level_is_depth root c0 recs root' c1 i chain level n r :
  flatten root c0 = Ok (recs, root', c1) ->
  nth_error (preorder [] 0 root) i = Some (chain, level, n) ->
  nth_error recs i = Some r ->
  lookup r "hierarchy_level" = Some (VInt (Z.of_nat (List.length chain))).
Proof.
  intros Hf Hv Hr.
  rewrite (flatten_record _ _ _ _ _ _ _ _ _ _ Hf Hv Hr).
  pose proof (preorder_descends root [] 0) as H.
  rewrite Forall_forall in H.
  destruct (H (chain, level, n) (nth_error_In _ _ Hv)) as (rest & E1 & E2).
  cbn [fst snd app] in E1, E2. subst rest level.
  apply element_reserved.
Qed.

Lemma level_is_depth_witness :
  lookup (element_of [outer_part] 1 inner_part 2) "hierarchy_level"
  = Some (VInt (Z.of_nat (List.length [outer_part]))).
Proof.
  exact (level_is_depth outer_part 1
           (records_of 1 (preorder [] 0 outer_part)) (stripped outer_part)
           3 1%nat [outer_part] 1 inner_part
           (element_of [outer_part] 1 inner_part 2)
           eq_refl eq_refl eq_refl).
Defined.

(** X10. One call started with the counter at [c0] returns as many records
    as the tree has nodes, gives the record at position [i] the order id
    [c0 + i] (whatever attributes the node has), and leaves the counter at
    [c0] plus the node count. *)
Theorem one_call_numbering root c0 recs root' c1 :
  flatten root c0 = Ok (recs, root', c1) ->
  List.length recs = size root /\
  c1 = c0 + Z.of_nat (size root) /\
  Forall (fun ir => lookup (snd ir) "order_id"
                    = Some (VInt (c0 + Z.of_nat (fst ir))))
    (combine (seq 0 (List.length recs)) recs).
Proof.
  intros Hf. pose proof Hf as Hf'. rewrite flatten_total in Hf'.
  injection Hf' as <- _ <-.
  split; [now rewrite length_records_of, length_preorder|].
  split; [reflexivity|].
  apply Forall_forall. intros [i r] Hin. cbn [fst snd].
  assert (Hnth : nth_error (records_of c0 (preorder [] 0 root)) i = Some r).
  { apply In_nth_error in Hin. destruct Hin as [j Hj].
    pose proof Hj as Hj'.
    apply nth_error_split in Hj'. destruct Hj' as (l1 & l2 & E & Hlen).
    assert (Hlt : (j < List.length
                         (combine (seq 0 (List.length
                            (records_of c0 (preorder [] 0 root))))
                            (records_of c0 (preorder [] 0 root))))%nat).
    { apply nth_error_Some. congruence. }
    rewrite length_combine, length_seq, Nat.min_id in Hlt.
    assert (Hd : nth j (combine (seq 0 (List.length
                          (records_of c0 (preorder [] 0 root))))
                          (records_of c0 (preorder [] 0 root)))
                   (0%nat, r) = (i, r)).
    { now apply nth_error_nth. }
    rewrite combine_nth in Hd by now rewrite length_seq.
    rewrite seq_nth in Hd by assumption. cbn [Nat.add] in Hd.
    injection Hd as <- Hr.
    rewrite <- Hr. apply nth_error_nth'. assumption. }
  destruct (flatten_record_inv _ _ _ _ _ _ _ Hf Hnth)
    as (chain & level & n & _ & ->).
  apply element_reserved.
Qed.

Lemma one_call_numbering_witness :
  List.length (records_of 5 (preorder [] 0 outer_part)) = size outer_part /\
  5 + 2 = 5 + Z.of_nat (size outer_part) /\
  Forall (fun ir => lookup (snd ir) "order_id"
                    = Some (VInt (5 + Z.of_nat (fst ir))))
    (combine (seq 0 (List.length (records_of 5 (preorder [] 0 outer_part))))
       (records_of 5 (preorder [] 0 outer_part))).
Proof.
  exact (one_call_numbering outer_part 5
           (records_of 5 (preorder [] 0 outer_part)) (stripped outer_part)
           (5 + 2) eq_refl).
Defined.

Lemma in_records_inv root c0 recs root' c1 r :
  flatten root c0 = Ok (recs, root', c1) ->
  In r recs ->
  exists i chain level n,
    nth_error (preorder [] 0 root) i = Some (chain, level, n) /\
    nth_error recs i = Some r /\
    r = element_of chain level n (c0 + Z.of_nat i).
Proof.
  intros Hf Hin. apply In_nth_error in Hin. destruct Hin as [i Hi].
  destruct (flatten_record_inv _ _ _ _ _ _ _ Hf Hi)
    as (chain & level & n & Hv & E).
  exists i, chain, level, n. auto.
Qed.

Lemma element_ref_recomputable parent_chain level n order_id :
  let r := element_of parent_chain level n order_id in
  exists s,
    lookup r "cfr_ref" = Some (VStr s) /\
    calculate_cfr_ref r = Ok s /\
    truthy (VStr s) = true.
Proof.
  unfold element_of. cbv zeta.
  set (e := element_fields parent_chain level n order_id).
  exists (cfr_ref_text e). split; [apply lookup_set_eq|].
  destruct (ref_nonempty e) as (s & Hs & Hne).
  assert (E : cfr_ref_text e = s) by (unfold cfr_ref_text; now rewrite Hs).
  rewrite E. split; auto.
  rewrite <- Hs. apply calculate_cfr_ref_agree.
  intros k Hk. apply lookup_set_ne. intros <-.
  simpl in Hk. intuition discriminate.
Qed.

(** X11. Every record of a flatten call holds under [cfr_ref] a non-empty
    string, and that string is what the synthesizer returns on the finished
    record itself: writing the reference into the record does not change
    the reference. *)
Theorem stored_reference_is_stable root c0 recs root' c1 :
  flatten root c0 = Ok (recs, root', c1) ->
  Forall (fun r => exists s,
            lookup r "cfr_ref" = Some (VStr s) /\
            calculate_cfr_ref r = Ok s /\
            truthy (VStr s) = true) recs.
Proof.
  intros Hf. apply Forall_forall. intros r Hin.
  destruct (in_records_inv _ _ _ _ _ _ Hf Hin)
    as (i & chain & level & n & _ & _ & ->).
  apply element_ref_recomputable.
Qed.

Lemma stored_reference_is_stable_witness :
  Forall (fun r => exists s,
            lookup r "cfr_ref" = Some (VStr s) /\
            calculate_cfr_ref r = Ok s /\
            truthy (VStr s) = true)
    (records_of 1 (preorder [] 0 scenario_A_identifier)).
Proof.
  exact (stored_reference_is_stable scenario_A_identifier 1
           (records_of 1 (preorder [] 0 scenario_A_identifier))
           (stripped scenario_A_identifier) 4 eq_refl).
Defined.








(** ** Running the flattener again on the tree it has left *)

Lemma without_volatile_idem a :
  without_volatile (without_volatile a) = without_volatile a.
Proof.
  unfold without_volatile. rewrite filter_filter.
  apply filter_ext. intros x. now destruct (negb _).
Qed.

Lemma remove_unwanted_idem a :
  remove_unwanted (without_volatile a) = remove_unwanted a.
Proof. now rewrite !remove_unwanted_spec, without_volatile_idem. Qed.

Lemma stripped_idem n : stripped (stripped n) = stripped n.
Proof.
  induction n as [a|a kids IH] using node_ind; cbn [stripped].
  - now rewrite without_volatile_idem.
  - rewrite without_volatile_idem. do 2 f_equal.
    rewrite map_map. apply map_ext_in.
    rewrite Forall_forall in IH. auto.
Qed.

Lemma size_stripped n : size (stripped n) = size n.
Proof.
  induction n as [a|a kids IH] using node_ind; cbn [stripped size]; auto.
  do 2 f_equal. rewrite map_map. apply map_ext_in.
  rewrite Forall_forall in IH. auto.
Qed.

Lemma add_ancestors_attrs chain :
  forall chain' acc,
    map attrs chain = map attrs chain' ->
    fold_left add_ancestor chain acc = fold_left add_ancestor chain' acc.
Proof.
  induction chain as [|a chain IH]; intros [|a' chain'] acc H;
    try discriminate; auto.
  cbn [map] in H. injection H as Ha Hc. cbn [fold_left].
  unfold add_ancestor at 2 4. rewrite Ha. now apply IH.
Qed.

Lemma element_of_attrs chain chain' level n n' order_id :
  map attrs chain = map attrs chain' ->
  attrs n = attrs n' ->
  no_children (children n) = no_children (children n') ->
  element_of chain level n order_id = element_of chain' level n' order_id.
Proof.
  intros Hc Ha Hk. unfold element_of, element_fields, combined_parent_fields.
  cbv zeta. now rewrite (add_ancestors_attrs chain chain' [] Hc), Ha, Hk.
Qed.

Lemma records_of_stripped_children l :
  Forall (fun n => forall chain chain' level c,
            map attrs chain = map attrs chain' ->
            records_of c (preorder chain level (stripped n))
            = records_of c (preorder chain' level n)) l ->
  forall chain chain' level c,
    map attrs chain = map attrs chain' ->
    records_of c (flat_map (preorder chain level) (map stripped l))
    = records_of c (flat_map (preorder chain' level) l).
Proof.
  induction 1 as [|k l Hk _ IH]; intros chain chain' level c Hc; auto.
  cbn [map flat_map]. rewrite !records_of_app, !length_preorder.
  rewrite size_stripped. f_equal; auto.
Qed.

Lemma records_of_stripped n :
  forall chain chain' level c,
    map attrs chain = map attrs chain' ->
    records_of c (preorder chain level (stripped n))
    = records_of c (preorder chain' level n).
Proof.
  induction n as [a|a kids IH] using node_ind;
    intros chain chain' level c Hc; cbn [stripped preorder records_of].
  - f_equal. apply element_of_attrs; auto.
    cbn [attrs]. apply remove_unwanted_idem.
  - f_equal.
    + apply element_of_attrs; auto.
      * cbn [attrs]. apply remove_unwanted_idem.
      * cbn [children no_children]. now rewrite length_map.
    + apply records_of_stripped_children; auto.
      rewrite !map_app, Hc. cbn [map attrs].
      now rewrite remove_unwanted_idem.
Qed.

(** X14. Flattening the tree that a first call has left behind gives the
    same records and leaves that tree as it is: the deletions happen once,
    and no record depends on the deleted keys. *)
Theorem flatten_again_is_the_same :
  forall root c0,
    exists recs c1,
      flatten root c0 = Ok (recs, stripped root, c1) /\
      flatten (stripped root) c0 = Ok (recs, stripped root, c1).
Proof.
  intros root c0.
  exists (records_of c0 (preorder [] 0 root)), (c0 + Z.of_nat (size root)).
  split; [apply flatten_total|].
  rewrite flatten_total, stripped_idem, size_stripped.
  now rewrite (records_of_stripped root [] [] 0 c0 eq_refl).
Qed.

(** ** What the caller makes of the records *)

Lemma has_underscore_after (p t : string) :
  has_underscore (p +++ String "_"%char t) = true.
Proof.
  induction p as [|c p IH]; cbn [String.append has_underscore].
  - reflexivity.
  - rewrite IH. apply orb_true_r.
Qed.

Lemma has_underscore_namespaced owner k :
  has_underscore (namespaced owner k) = true.
Proof. unfold namespaced. apply has_underscore_after. Qed.

Lemma element_keys_have_underscore parent_chain level n order_id key :
  In key (keys (element_of parent_chain level n order_id)) ->
  has_underscore key = true.
Proof.
  intros H. apply keys_element in H. destruct H as [H|[H|H]].
  - unfold reserved_keys in H. simpl in H.
    destruct H as [<-|[<-|[<-|[<-|[<-|[]]]]]]; reflexivity.
  - apply keys_combined in H. destruct H as (a & k & _ & _ & _ & ->).
    apply has_underscore_namespaced.
  - apply keys_own in H. destruct H as (k & _ & _ & ->).
    apply has_underscore_namespaced.
Qed.

(** X15. Every key of every record of a flatten call contains an
    underscore: it is a reserved key or a namespaced one. A key without an
    underscore, such as [reserved] or [identifier], is never in a
    record. *)
Theorem record_keys_are_namespaced root c0 recs root' c1 :
  flatten root c0 = Ok (recs, root', c1) ->
  Forall (fun r =>
            Forall (fun key => has_underscore key = true) (keys r) /\
            lookup r "reserved" = None /\
            lookup r "identifier" = None) recs.
Proof.
  intros Hf. apply Forall_forall. intros r Hin.
  destruct (in_records_inv _ _ _ _ _ _ Hf Hin)
    as (i & chain & level & n & _ & _ & ->).
  assert (Hk : forall key, has_underscore key = false ->
                 lookup (element_of chain level n (c0 + Z.of_nat i)) key
                 = None).
  { intros key Hu. apply lookup_none_notin. intros Hkey.
    apply element_keys_have_underscore in Hkey. congruence. }
  split; [|split; apply Hk; reflexivity].
  apply Forall_forall. intros key. apply element_keys_have_underscore.
Qed.

Lemma record_keys_are_namespaced_witness :
  Forall (fun r =>
            Forall (fun key => has_underscore key = true) (keys r) /\
            lookup r "reserved" = None /\
            lookup r "identifier" = None)
    (records_of 1 (preorder [] 0 with_volatile)).
Proof.
  exact (record_keys_are_namespaced with_volatile 1
           (records_of 1 (preorder [] 0 with_volatile))
           (stripped with_volatile) 3 eq_refl).
Defined.

Lemma prepare_detail_records_spec title_number items :
  Forall (fun r => exists s, lookup r "cfr_ref" = Some (VStr s) /\
                             truthy (VStr s) = true) items ->
  forall detail_records skipped,
    prepare_detail_records items title_number detail_records skipped
    = (detail_records ++ map (fun r => detail_record r title_number) items,
       skipped).
Proof.
  induction 1 as [|r items (s & Hs & Hne) _ IH]; intros acc skipped.
  - simpl. now rewrite app_nil_r.
  - cbn [prepare_detail_records map].
    unfold getitem, detail_record at 1. cbn [lookup String.eqb Ascii.eqb
      Bool.eqb]. unfold get at 1. rewrite Hs, Hne. cbn [negb].
    rewrite IH, <- app_assoc. reflexivity.
Qed.

Lemma prepare_on_flatten_records root c0 recs root' c1 title_number :
  flatten root c0 = Ok (recs, root', c1) ->
  prepare_detail_records (filtered_flattened recs) title_number [] 0
  = (map (fun r => detail_record r title_number) (filtered_flattened recs),
     0) /\
  Forall (fun row => lookup row "reserved" = Some (VBool false))
    (map (fun r => detail_record r title_number) (filtered_flattened recs)).
Proof.
  intros Hf.
  assert (Hall : Forall (fun r =>
                   (exists s, lookup r "cfr_ref" = Some (VStr s) /\
                              truthy (VStr s) = true) /\
                   lookup r "reserved" = None) (filtered_flattened recs)).
  { apply Forall_forall. intros r Hin.
    apply filter_In in Hin. destruct Hin as [Hin _].
    destruct (in_records_inv _ _ _ _ _ _ Hf Hin)
      as (i & chain & level & n & _ & _ & ->).
    split.
    - destruct (element_ref_recomputable chain level n (c0 + Z.of_nat i))
        as (s & H1 & _ & H3). eauto.
    - apply lookup_none_notin. intros Hkey.
      apply element_keys_have_underscore in Hkey. discriminate. }
  split.
  - rewrite prepare_detail_records_spec; [reflexivity|].
    eapply Forall_impl; [|exact Hall]. intros r [H _]. exact H.
  - apply Forall_map. eapply Forall_impl; [|exact Hall].
    intros r [_ H]. unfold detail_record.
    cbn [lookup String.eqb Ascii.eqb Bool.eqb]. unfold get. now rewrite H.
Qed.

Lemma hierarchy_type_is_title parent_chain level n order_id :
  eq_lit (get (element_of parent_chain level n order_id) "hierarchy_type"
            VNone) "title"
  = is_title_node n.
Proof.
  destruct (element_reserved parent_chain level n order_id)
    as (_ & R2 & _).
  unfold get at 1. rewrite R2. unfold get, is_title_node.
  destruct (lookup (attrs n) "type") as [[| | |s]|]; reflexivity.
Qed.

Lemma filtered_records_of vs :
  forall c,
    filtered_flattened (records_of c vs)
    = map snd
        (filter (fun vr : visit * dict => negb (is_title_node (snd (fst vr))))
           (combine vs (records_of c vs))).
Proof.
  induction vs as [|[[ch lv] m] vs IH]; intros c; [reflexivity|].
  unfold filtered_flattened in *.
  cbn [records_of combine filter fst snd].
  rewrite hierarchy_type_is_title, IH.
  now destruct (is_title_node m).
Qed.

(** X16. On the records of a flatten call the loop that prepares the
    detail rows skips nothing: the skip count is 0 and there is exactly one
    row, in order, for each node whose [type] is not the string ["title"],
    made from that node's record; the record of a title node gets no row.
    In each row [reserved] is False, because no record has a key
    [reserved]. *)
Theorem no_detail_record_is_skipped root c0 recs root' c1 title_number :
  flatten root c0 = Ok (recs, root', c1) ->
  prepare_detail_records (filtered_flattened recs) title_number [] 0
  = (map (fun vr : visit * dict => detail_record (snd vr) title_number)
       (filter (fun vr : visit * dict => negb (is_title_node (snd (fst vr))))
          (combine (preorder [] 0 root) recs)),
     0) /\
  Forall (fun row => lookup row "reserved" = Some (VBool false))
    (map (fun vr : visit * dict => detail_record (snd vr) title_number)
       (filter (fun vr : visit * dict => negb (is_title_node (snd (fst vr))))
          (combine (preorder [] 0 root) recs))).
Proof.
  intros Hf.
  destruct (prepare_on_flatten_records _ _ _ _ _ title_number Hf)
    as [H1 H2].
  assert (E : filtered_flattened recs
              = map snd
                  (filter (fun vr : visit * dict =>
                             negb (is_title_node (snd (fst vr))))
                     (combine (preorder [] 0 root) recs))).
  { rewrite flatten_total in Hf. injection Hf as <- _ _.
    apply filtered_records_of. }
  rewrite E, map_map in H2. split; [|exact H2].
  rewrite H1, E, map_map. reflexivity.
Qed.

Lemma no_detail_record_is_skipped_witness :
  exists rows,
    prepare_detail_records
      (filtered_flattened
         (records_of 1 (preorder [] 0 scenario_A_identifier)))
      (VInt 21) [] 0
    = (rows, 0) /\
    map (fun row => lookup row "hierarchy_type") rows
    = [Some (VStr "part"); Some (VStr "section")] /\
    map (fun row => lookup row "cfr_ref") rows
    = [Some (VStr "21 CFR pt100"); Some (VStr "21 CFR §100.1")] /\
    map (fun row => lookup row "reserved") rows
    = [Some (VBool false); Some (VBool false)].
Proof.
  eexists. split.
  - exact (proj1 (no_detail_record_is_skipped scenario_A_identifier 1
                    (records_of 1 (preorder [] 0 scenario_A_identifier))
                    (stripped scenario_A_identifier) 4 (VInt 21) eq_refl)).
  - repeat split; reflexivity.
Defined.

(** ** The titles filter *)







(** ** SQL identifiers *)

Lemma newline_not_part : is_part_char "010"%char = false.
Proof. reflexivity. Qed.

Lemma list_ascii_app a b :
  list_ascii_of_string (a +++ b)
  = list_ascii_of_string a ++ list_ascii_of_string b.
Proof. induction a as [|c a IH]; simpl; [reflexivity | now rewrite IH]. Qed.

Lemma match_rest_iff s :
  match_rest s = true <->
  forallb is_part_char (list_ascii_of_string s) = true \/
  exists body, s = body +++ newline /\
               forallb is_part_char (list_ascii_of_string body) = true.
Proof.
  induction s as [|c s IH]; cbn [match_rest list_ascii_of_string forallb].
  - split; auto.
  - destruct (is_part_char c) eqn:Hc; cbn [andb].
    + rewrite IH. split.
      * intros [H|(body & -> & H)]; auto.
        right. exists (String c body). cbn [String.append].
        split; auto. cbn [list_ascii_of_string forallb]. now rewrite Hc.
      * intros [H|(body & E & H)]; auto.
        destruct body as [|c' body]; cbn [String.append] in E.
        -- unfold newline in E. injection E as -> _.
           rewrite newline_not_part in Hc. discriminate.
        -- injection E as <- ->.
           cbn [list_ascii_of_string forallb] in H.
           apply andb_true_iff in H. right. exists body. tauto.
    + split.
      * intros H. apply andb_true_iff in H. destruct H as [H1 H2].
        apply Ascii.eqb_eq in H1. apply String.eqb_eq in H2. subst.
        right. exists EmptyString. auto.
      * intros [H|(body & E & H)]; [discriminate|].
        destruct body as [|c' body]; cbn [String.append] in E.
        -- unfold newline in E. injection E as -> ->. reflexivity.
        -- injection E as <- ->.
           cbn [list_ascii_of_string forallb] in H. rewrite Hc in H.
           discriminate.
Qed.

Lemma valid_identifier_match_iff s :
  valid_identifier_match s = true <->
  plain_identifier s = true \/
  exists body, s = body +++ newline /\ plain_identifier body = true.
Proof.
  destruct s as [|c s]; cbn [valid_identifier_match plain_identifier].
  - split; [discriminate|]. intros [H|(body & E & H)]; [discriminate|].
    destruct body; discriminate.
  - rewrite andb_true_iff, match_rest_iff. split.
    + intros [Hc [H|(body & -> & H)]].
      * left. now rewrite Hc.
      * right. exists (String c body). split; auto.
        cbn [plain_identifier]. now rewrite Hc.
    + intros [H|(body & E & H)].
      * apply andb_true_iff in H. tauto.
      * destruct body as [|c' body]; [discriminate|].
        cbn [String.append] in E. injection E as <- ->.
        cbn [plain_identifier] in H. apply andb_true_iff in H.
        split; [tauto|]. right. exists body. tauto.
Qed.

Lemma validate_ok_iff s identifier_type :
  validate_sql_identifier (VStr s) identifier_type = Done tt <->
  valid_identifier_match s = true.
Proof.
  unfold validate_sql_identifier.
  destruct (String.eqb s EmptyString) eqn:E.
  - apply String.eqb_eq in E. subst. split; discriminate.
  - destruct (valid_identifier_match s); cbn [negb]; split; auto;
      discriminate.
Qed.


Lemma count_char_app c a b :
  count_char c (a +++ b) = (count_char c a + count_char c b)%nat.
Proof.
  induction a as [|x a IH]; cbn [String.append count_char]; auto.
  rewrite IH. lia.
Qed.

Lemma count_char_part_only c s :
  forallb is_part_char (list_ascii_of_string s) = true ->
  is_part_char c = false ->
  count_char c s = O.
Proof.
  intros Hs Hc. induction s as [|x s IH]; auto.
  cbn [list_ascii_of_string forallb] in Hs. apply andb_true_iff in Hs.
  destruct Hs as [Hx Hs]. cbn [count_char]. rewrite (IH Hs).
  destruct (Ascii.eqb c x) eqn:E; auto.
  apply Ascii.eqb_eq in E. congruence.
Qed.

Lemma plain_identifier_parts s :
  plain_identifier s = true ->
  forallb is_part_char (list_ascii_of_string s) = true.
Proof.
  destruct s as [|c s]; [discriminate|].
  cbn [plain_identifier list_ascii_of_string forallb].
  rewrite !andb_true_iff. intros [Hc Hs]. split; auto.
  unfold is_part_char. cbv zeta. now rewrite Hc.
Qed.

Lemma valid_identifier_no_char c s :
  valid_identifier_match s = true ->
  is_part_char c = false -> c <> "010"%char ->
  count_char c s = O.
Proof.
  intros Hs Hc Hn. apply valid_identifier_match_iff in Hs.
  destruct Hs as [H|(body & -> & H)].
  - apply count_char_part_only; auto using plain_identifier_parts.
  - rewrite count_char_app, count_char_part_only;
      auto using plain_identifier_parts.
    unfold newline. cbn [count_char].
    destruct (Ascii.eqb c "010") eqn:E; auto.
    apply Ascii.eqb_eq in E. contradiction.
Qed.



(** ** The upsert statement *)

Lemma and_then_done {A B} (c : outcome A) (k : A -> outcome B) b :
  and_then c k = Done b <-> exists a, c = Done a /\ k a = Done b.
Proof.
  destruct c as [a|e]; cbn [and_then]; split.
  - eauto.
  - intros (a' & [= <-] & H). exact H.
  - discriminate.
  - intros (a' & H & _). discriminate.
Qed.

Lemma validate_columns_iff columns :
  validate_columns columns = Done tt <->
  Forall (fun col => valid_identifier_match col = true) columns.
Proof.
  induction columns as [|col columns IH]; cbn [validate_columns].
  - split; auto.
  - rewrite and_then_done. split.
    + intros ([] & Hc & Hr). constructor.
      * now apply validate_ok_iff in Hc.
      * now apply IH.
    + intros H. inversion H as [|? ? Hc Hr]; subst. exists tt. split.
      * now apply validate_ok_iff.
      * now apply IH.
Qed.

Lemma validate_conflict_keys_iff conflict_keys record :
  validate_conflict_keys conflict_keys record = Done tt <->
  Forall (fun key => valid_identifier_match key = true /\
                     contains key record = true) conflict_keys.
Proof.
  induction conflict_keys as [|key rest IH]; cbn [validate_conflict_keys].
  - split; auto.
  - rewrite and_then_done. split.
    + intros ([] & Hc & Hr).
      destruct (contains key record) eqn:Hin; cbn [negb] in Hr;
        [|discriminate].
      constructor; [|now apply IH]. split; auto.
      now apply validate_ok_iff in Hc.
    + intros H. inversion H as [|? ? [Hc Hin] Hr]; subst. exists tt. split.
      * now apply validate_ok_iff.
      * rewrite Hin. cbn [negb]. now apply IH.
Qed.

Lemma upsert_statement_done_iff record table_name conflict_key sql :
  upsert_statement record table_name conflict_key = Done sql <->
  exists conflict_keys,
    record <> [] /\
    valid_identifier_match table_name = true /\
    Forall (fun col => valid_identifier_match col = true) (keys record) /\
    normalize_conflict_key conflict_key = Done conflict_keys /\
    conflict_keys <> [] /\
    Forall (fun key => valid_identifier_match key = true /\
                       contains key record = true) conflict_keys /\
    sql = build_sql record table_name conflict_keys.
Proof.
  unfold upsert_statement. destruct record as [|kv record].
  - split; [discriminate|]. intros (cks & H & _). congruence.
  - rewrite and_then_done. split.
    + intros ([] & Ht & H). apply and_then_done in H.
      destruct H as ([] & Hc & H). apply and_then_done in H.
      destruct H as (cks & Hn & H). exists cks.
      destruct cks as [|k cks]; [discriminate|].
      apply and_then_done in H. destruct H as ([] & Hk & [= <-]).
      repeat split; try discriminate; auto.
      * now apply validate_ok_iff in Ht.
      * now apply validate_columns_iff.
      * now apply validate_conflict_keys_iff.
    + intros (cks & _ & Ht & Hc & Hn & Hne & Hk & ->).
      exists tt. split; [now apply validate_ok_iff|].
      apply and_then_done. exists tt.
      split; [now apply validate_columns_iff|].
      apply and_then_done. exists cks. split; auto.
      destruct cks as [|k cks]; [congruence|].
      apply and_then_done. exists tt.
      split; [now apply validate_conflict_keys_iff | reflexivity].
Qed.



Lemma count_char_concat_zero c sep l :
  count_char c sep = O ->
  Forall (fun x => count_char c x = O) l ->
  count_char c (String.concat sep l) = O.
Proof.
  intros Hsep. induction 1 as [|x l Hx Hl IH]; [reflexivity|].
  cbn [String.concat]. destruct l as [|y l]; auto.
  rewrite !count_char_app, Hx, Hsep, IH. reflexivity.
Qed.

Lemma count_char_placeholders n :
  count_char "?"%char (String.concat ", " (repeat "?" n)) = n.
Proof.
  induction n as [|n IH]; [reflexivity|].
  cbn [repeat String.concat]. destruct n as [|n]; [reflexivity|].
  cbn [repeat] in *. rewrite !count_char_app, IH. reflexivity.
Qed.

Lemma count_char_quoted c col :
  count_char c dquote = O -> count_char c col = O ->
  count_char c (quoted col) = O.
Proof.
  intros Hq Hc. unfold quoted. now rewrite !count_char_app, Hq, Hc.
Qed.

Lemma question_mark_free s :
  valid_identifier_match s = true -> count_char "?"%char s = O.
Proof.
  intros H. apply valid_identifier_no_char; auto. discriminate.
Qed.

Lemma build_sql_placeholders record table_name conflict_keys :
  valid_identifier_match table_name = true ->
  Forall (fun col => valid_identifier_match col = true) (keys record) ->
  Forall (fun key => valid_identifier_match key = true) conflict_keys ->
  count_char "?"%char (build_sql record table_name conflict_keys)
  = List.length record.
Proof.
  intros Ht Hc Hk.
  assert (Hq : forall s, valid_identifier_match s = true ->
                         count_char "?"%char (quoted s) = O).
  { intros s Hs. apply count_char_quoted; auto using question_mark_free. }
  assert (Hcols : count_char "?"%char
                    (String.concat ", " (map quoted (keys record))) = O).
  { apply count_char_concat_zero; auto. apply Forall_map.
    eapply Forall_impl; [|exact Hc]. auto. }
  assert (Hcks : count_char "?"%char
                   (String.concat ", " (map quoted conflict_keys)) = O).
  { apply count_char_concat_zero; auto. apply Forall_map.
    eapply Forall_impl; [|exact Hk]. auto. }
  assert (Hupd : forall l,
             Forall (fun col => valid_identifier_match col = true) l ->
             count_char "?"%char
               (String.concat ", "
                  (map (fun col => quoted col +++ " = excluded."
                                     +++ quoted col) l)) = O).
  { intros l Hl. apply count_char_concat_zero; auto. apply Forall_map.
    eapply Forall_impl; [|exact Hl]. intros s Hs. cbv beta.
    now rewrite !count_char_app, (Hq s Hs). }
  unfold build_sql. cbv zeta.
  set (upd := filter (fun col => negb (in_list col conflict_keys))
                (keys record)).
  assert (Hu : Forall (fun col => valid_identifier_match col = true) upd).
  { apply Forall_forall. intros x Hx. apply filter_In in Hx.
    rewrite Forall_forall in Hc. now apply Hc. }
  destruct upd as [|u upd];
    rewrite !count_char_app, Hcols, Hcks, (Hq _ Ht),
      count_char_placeholders, ?(Hupd _ Hu); cbn [count_char Ascii.eqb
      Bool.eqb newline indent16 indent12 Nat.add]; lia.
Qed.

(** X21. Whenever [upsert_to_db] issues a statement, the number of [?]
    placeholders in its text equals the number of columns of the record,
    which is the number of values passed along: no name can add a
    question mark. *)
Theorem placeholders_match_columns record table_name conflict_key sql :
  upsert_statement record table_name conflict_key = Done sql ->
  count_char "?"%char sql = List.length record.
Proof.
  intros H. apply upsert_statement_done_iff in H.
  destruct H as (cks & _ & Ht & Hc & _ & _ & Hk & ->).
  apply build_sql_placeholders; auto.
  eapply Forall_impl; [|exact Hk]. intros k [Hv _]. exact Hv.
Qed.

Lemma placeholders_match_columns_witness :
  exists sql,
    upsert_statement [("id", VInt 1); ("name", VStr "x")] "users"
      (CkStr "id") = Done sql /\
    count_char "?"%char sql = 2%nat.
Proof.
  eexists. split; [reflexivity|].
  exact (placeholders_match_columns [("id", VInt 1); ("name", VStr "x")]
           "users" (CkStr "id") _ eq_refl).
Defined.

(** X22. A row prepared for [title_details] always passes the checks of
    [upsert_to_db] with the conflict key [cfr_ref], whatever record it was
    made from, and the statement issued is the same for every row. *)
Theorem detail_rows_pass_validation :
  forall (item : dict) (title_number : value),
    upsert_statement (detail_record item title_number) "title_details"
      (CkStr "cfr_ref")
    = Done (build_sql (detail_record [] VNone) "title_details" ["cfr_ref"]).
Proof. intros item title_number. vm_compute. reflexivity. Qed.

(** ** Batches *)

Section Batches.
Context {A : Type}.
Variable records : list A.
Variable batch_size : nat.
Hypothesis batch_size_positive : (0 < batch_size)%nat.

Lemma batches_from_concat fuel :
  forall i,
    (List.length records - i <= fuel)%nat ->
    List.concat (map snd (batches_from fuel i records batch_size))
    = skipn i records.
Proof.
  induction fuel as [|fuel IH]; intros i Hfuel; cbn [batches_from].
  - symmetry. apply skipn_all2. lia.
  - destruct (i <? List.length records)%nat eqn:Hi.
    + apply Nat.ltb_lt in Hi. cbn [map snd List.concat].
      rewrite IH by lia.
      replace (skipn (i + batch_size) records)
        with (skipn batch_size (skipn i records))
        by (rewrite skipn_skipn; f_equal; lia).
      apply firstn_skipn.
    + apply Nat.ltb_ge in Hi. symmetry. now apply skipn_all2.
Qed.

Lemma batches_from_sizes fuel :
  forall i,
    Forall (fun b => (0 < List.length (snd b) <= batch_size)%nat)
      (batches_from fuel i records batch_size).
Proof.
  induction fuel as [|fuel IH]; intros i; cbn [batches_from];
    [constructor|].
  destruct (i <? List.length records)%nat eqn:Hi; [|constructor].
  apply Nat.ltb_lt in Hi. constructor; auto. cbn [snd].
  rewrite length_firstn, length_skipn. lia.
Qed.

Lemma batches_from_full fuel :
  forall i,
    Forall (fun b => List.length (snd b) = batch_size)
      (removelast (batches_from fuel i records batch_size)).
Proof.
  induction fuel as [|fuel IH]; intros i; cbn [batches_from];
    [constructor|].
  destruct (i <? List.length records)%nat eqn:Hi; [|constructor].
  specialize (IH (i + batch_size)%nat).
  destruct (batches_from fuel (i + batch_size) records batch_size)
    as [|b rest] eqn:E; [constructor|].
  cbn [removelast] in *. constructor; auto. cbn [snd].
  rewrite length_firstn, length_skipn.
  destruct fuel as [|fuel']; [discriminate|]. cbn [batches_from] in E.
  destruct (i + batch_size <? List.length records)%nat eqn:Hi2;
    [|discriminate].
  apply Nat.ltb_lt in Hi2. lia.
Qed.

Lemma batches_from_numbers fuel :
  forall i,
    map fst (batches_from fuel i records batch_size)
    = seq (i / batch_size + 1)
        (List.length (batches_from fuel i records batch_size)).
Proof.
  induction fuel as [|fuel IH]; intros i; cbn [batches_from]; auto.
  destruct (i <? List.length records)%nat; auto.
  cbn [map fst List.length seq]. f_equal. rewrite IH. f_equal.
  replace (i + batch_size)%nat with (i + 1 * batch_size)%nat by lia.
  rewrite Nat.div_add by lia. lia.
Qed.

Lemma batches_from_fuel fuel1 :
  forall fuel2 i,
    (List.length records - i <= fuel1)%nat ->
    (List.length records - i <= fuel2)%nat ->
    batches_from fuel1 i records batch_size
    = batches_from fuel2 i records batch_size.
Proof.
  induction fuel1 as [|fuel1 IH]; intros [|fuel2] i H1 H2;
    cbn [batches_from]; auto.
  - destruct (i <? List.length records)%nat eqn:Hi; auto.
    apply Nat.ltb_lt in Hi. lia.
  - destruct (i <? List.length records)%nat eqn:Hi; auto.
    apply Nat.ltb_lt in Hi. lia.
  - destruct (i <? List.length records)%nat eqn:Hi; auto.
    apply Nat.ltb_lt in Hi. f_equal. apply IH; lia.
Qed.
End Batches.

(** X23. For a positive batch size the batches of [batch_upsert_to_db] cut
    the record list into consecutive pieces: put together in order they
    are the list itself, every batch holds at least one and at most
    [batch_size] records, every batch but the last holds exactly
    [batch_size], the batch numbers are 1, 2, 3, ..., and more loop
    iterations than [len(records)] are never needed. *)
Theorem batches_partition_the_records
    (A : Type) (records : list A) (batch_size : nat) :
  (0 < batch_size)%nat ->
  List.concat (map snd (batch_plan records batch_size)) = records /\
  Forall (fun b => (0 < List.length (snd b) <= batch_size)%nat)
    (batch_plan records batch_size) /\
  Forall (fun b => List.length (snd b) = batch_size)
    (removelast (batch_plan records batch_size)) /\
  map fst (batch_plan records batch_size)
  = seq 1 (List.length (batch_plan records batch_size)) /\
  (forall fuel, (List.length records <= fuel)%nat ->
     batches_from fuel 0 records batch_size = batch_plan records batch_size).
Proof.
  intros Hpos. unfold batch_plan. repeat split.
  - rewrite batches_from_concat by (auto; lia). reflexivity.
  - now apply batches_from_sizes.
  - now apply batches_from_full.
  - rewrite batches_from_numbers by assumption.
    rewrite Nat.Div0.div_0_l. reflexivity.
  - intros fuel Hfuel. apply batches_from_fuel; auto; lia.
Qed.

Lemma batches_partition_the_records_witness :
  List.concat (map snd (batch_plan [1; 2; 3; 4; 5; 6; 7] 3))
  = [1; 2; 3; 4; 5; 6; 7].
Proof.
  refine (proj1 (batches_partition_the_records Z [1; 2; 3; 4; 5; 6; 7] 3 _)).
  lia.
Defined.


